(** * PandasSchema: Schema.validate and ValidationWarning

    A shallow embedding of [pandas_schema/schema.py] and
    [pandas_schema/validation_warning.py], followed by the properties of
    the validation engine: pairing by name and by position, short-circuits
    on structural mismatches, the ordering of the returned warnings, the
    string rendering of a warning and the absence of mutation. *)

From Stdlib Require Import ZArith List String Ascii DecimalString Lia.
From Stdlib Require Import Sorting.Sorted Sorting.Permutation.
From stdpp Require Import gmap strings list.

Local Open Scope string_scope.
Local Open Scope list_scope.

(* ===================================================================== *)
(** * Part I: the model                                                   *)
(* ===================================================================== *)

(** ** Python values *)

(** Cell values of a data frame, and the [value] a warning may carry.
    Python's [None] is modelled by [option] wherever a field may hold it. *)
Inductive PyValue :=
| PyInt (z : Z)
| PyStr (s : string)
| PyBool (b : bool).

(** [str(n)] for a non-negative [int]. *)
Definition str_of_nat (n : nat) : string :=
  NilEmpty.string_of_uint (Nat.to_uint n).

(** [str(z)] for an [int]. *)
Definition str_of_Z (z : Z) : string :=
  NilZero.string_of_int (Z.to_int z).

(** [str(v)], as used by the f-string placeholder [{self.value}]. *)
Definition str_of_value (v : PyValue) : string :=
  match v with
  | PyInt z => str_of_Z z
  | PyStr s => s
  | PyBool true => "True"
  | PyBool false => "False"
  end.

(** The double-quote character, code 34. *)
Definition dquote : string := String "034"%char EmptyString.

(** ** validation_warning.py *)

(** [class ValidationWarning]: the four attributes set by [__init__]. *)
Record ValidationWarning := mkValidationWarning {
  message : string;
  value : option PyValue;
  row : option Z;
  column : option string
}.

(** The default of the [row] parameter of [__init__]: [row: int = -1]. *)
Definition default_row : option Z := Some (-1)%Z.

(** [ValidationWarning(message=m)] and [ValidationWarning(message=m,
    column=c)]: the two ways [Schema.validate] builds a warning; [value]
    and [row] take their defaults. *)
Definition schema_warning (m : string) (c : option string) : ValidationWarning :=
  {| message := m; value := None; row := default_row; column := c |}.

(** [x is not None] *)
Definition is_not_None {A} (x : option A) : bool :=
  match x with Some _ => true | None => false end.

(** [ValidationWarning.__str__] *)
Definition __str__ (self : ValidationWarning) : string :=
  match row self, column self, value self with
  | Some r, Some c, Some v =>
      "{row: " +:+ str_of_Z r +:+ ", column: " +:+ dquote +:+ c +:+ dquote
      +:+ "}: " +:+ dquote +:+ str_of_value v +:+ dquote +:+ " " +:+ message self
  | _, _, _ => message self
  end.

(** The full form of the rendering, as the specification writes it:
    [{row: <row>, column: "<column>"}: "<value>" <message>]. *)
Definition full_form (r : Z) (c : string) (v : PyValue) (m : string) : string :=
  "{row: " +:+ str_of_Z r +:+ ", column: " +:+ dquote +:+ c +:+ dquote
  +:+ "}: " +:+ dquote +:+ str_of_value v +:+ dquote +:+ " " +:+ m.

(** ** The collaborators of Schema *)

(** A pandas Series: the cells of one column. *)
Definition Series := list PyValue.

(** [class Column] (column.py): the two members [Schema] uses, a [name] and
    a [validate] method from a series to warnings. *)
Record Column := mkColumn {
  name : string;
  column_validate : Series -> list ValidationWarning
}.

(** A pandas DataFrame: its columns in order, each a label and a series.
    Labels are taken to be unique, as name lookup assumes. *)
Definition DataFrame := list (string * Series).

(** [df.columns] *)
Definition df_columns (df : DataFrame) : list string := map fst df.

(** [name in df] *)
Definition df_contains (n : string) (df : DataFrame) : bool :=
  bool_decide (n ∈ df_columns df).

(** [df[name]]: [None] stands for pandas' KeyError. *)
Fixpoint df_getitem (n : string) (df : DataFrame) : option Series :=
  match df with
  | [] => None
  | (label, series) :: rest =>
      if String.eqb label n then Some series else df_getitem n rest
  end.

(** [df.iteritems()]: the (label, series) pairs in column order. *)
Definition df_iteritems (df : DataFrame) : list (string * Series) := df.

(** ** Exceptions and results *)

Inductive PyError :=
| PanSchInvalidSchemaError (msg : string)
  (** [PanSchArgumentError(f'Columns {shown} passed in are not part of the
      schema')]: [shown] lists the elements of the set the message prints
      (a Python set prints its elements in no fixed order). *)
| PanSchArgumentError (shown : list string)
| KeyError (label : string)
| TypeError
| AttributeError
| ValueError.

Inductive result (A : Type) :=
| Ok (a : A)
| Raise (e : PyError).
Arguments Ok {A} a.
Arguments Raise {A} e.

(** ** schema.py: construction *)

(** [class Schema]: the two attributes set by [__init__]. *)
Record Schema := mkSchema {
  columns : list Column;
  ordered : bool
}.

(** What a caller may pass as [columns]: Python does not enforce the
    annotation [Iterable[Column]]. [ArgOther] is any other object that has
    a truth value; [ArgAmbiguous] is an object whose truth value is not
    defined, a numpy array of several elements or a pandas Series or
    DataFrame, for which [bool(columns)] raises ValueError. *)
Inductive ColumnsArg :=
| ArgNone
| ArgList (cs : list Column)
| ArgTuple (cs : list Column)
| ArgOther (truth : bool)
| ArgAmbiguous.

(** What a caller may pass as [ordered]: a [bool], or any other object
    (a string, an int, ...). *)
Inductive OrderedArg :=
| OrdBool (b : bool)
| OrdOther.

(** Truth value of the argument, as [not columns] tests it; taking it
    raises for an object that has none. *)
Definition truthy (a : ColumnsArg) : result bool :=
  match a with
  | ArgNone => Ok false
  | ArgList cs | ArgTuple cs => Ok (match cs with [] => false | _ :: _ => true end)
  | ArgOther t => Ok t
  | ArgAmbiguous => Raise ValueError
  end.

(** [isinstance(columns, List)] *)
Definition isinstance_List (a : ColumnsArg) : bool :=
  match a with ArgList _ => true | _ => false end.

(** [isinstance(ordered, bool)] *)
Definition isinstance_bool (o : OrderedArg) : bool :=
  match o with OrdBool _ => true | OrdOther => false end.

(** [list(columns)] *)
Definition list_of (a : ColumnsArg) : list Column :=
  match a with
  | ArgList cs | ArgTuple cs => cs
  | ArgNone | ArgOther _ | ArgAmbiguous => []
  end.

(** The value of [ordered] once it is known to be a [bool]. *)
Definition bool_of (o : OrderedArg) : bool :=
  match o with OrdBool b => b | OrdOther => false end.

(** [Schema.__init__] *)
Definition Schema_init (cols : ColumnsArg) (ord : OrderedArg) : result Schema :=
  match truthy cols with
  | Raise e => Raise e
  | Ok truth =>
      if negb truth then
        Raise (PanSchInvalidSchemaError
                 "An instance of the schema class must have a columns list")
      else if negb (isinstance_List cols) then
        Raise (PanSchInvalidSchemaError
                 "The columns field must be a list of Column objects")
      else if negb (isinstance_bool ord) then
        Raise (PanSchInvalidSchemaError "The ordered field must be a boolean")
      else
        Ok {| columns := list_of cols; ordered := bool_of ord |}
  end.

(** [Schema.get_column_names] *)
Definition get_column_names (self : Schema) : list string :=
  map name (columns self).

(** ** schema.py: validate *)

(** The warning of the column-count check. *)
Definition count_warning (schema_cols df_cols : nat) : ValidationWarning :=
  schema_warning
    ("Invalid number of columns. The schema specifies " +:+ str_of_nat schema_cols
     +:+ ", but the data frame has " +:+ str_of_nat df_cols)
    None.

(** The warning for a schema column that the data frame lacks. *)
Definition missing_warning (n : string) : ValidationWarning :=
  schema_warning
    ("The column " +:+ n +:+ " exists in the schema but not in the data frame")
    (Some n).

(** [a == b] for a [str] [a] and a [Column] object [b]: [Column] defines no
    [__eq__], so the comparison falls back to identity and is [False]. *)
Definition str_eq_Column (a : string) (b : Column) : bool := false.

(** [set(columns)]: the distinct names; a Python set has no order, here
    they are a list without repetition. *)
Definition py_set (names : list string) : list string := remove_dups names.

(** [set(columns).issubset(self.get_column_names())] *)
Definition issubset (names schema_names : list string) : bool :=
  forallb (fun n => bool_decide (n ∈ schema_names)) (py_set names).

(** [set(columns).difference(self.columns)]: the names that are equal to no
    element of the list of [Column] objects. *)
Definition difference_Columns (names : list string) (cols : list Column) : list string :=
  filter (fun n => negb (existsb (str_eq_Column n) cols)) (py_set names).

(** How a phase of [validate] ends: it goes on with a value, or [validate]
    returns or raises there. *)
Inductive phase (A : Type) :=
| Continue (a : A)
| Return (errors : list ValidationWarning)
| Raised (e : PyError).
Arguments Continue {A} a.
Arguments Return {A} errors.
Arguments Raised {A} e.

(** First phase: the working list [columns_to_pair]. *)
Definition select_columns (self : Schema) (df : DataFrame)
    (subset : option (list string)) (errors : list ValidationWarning)
  : phase (list Column) :=
  let df_cols := length (df_columns df) in
  match subset with
  | None =>
      let schema_cols := length (columns self) in
      let columns_to_pair := columns self in
      if negb (df_cols =? schema_cols)%nat then
        Return (errors ++ [count_warning schema_cols df_cols])
      else Continue columns_to_pair
  | Some names =>
      if issubset names (get_column_names self) then
        Continue (filter (fun c => name c ∈ names) (columns self))
      else
        Raised (PanSchArgumentError (difference_Columns names (columns self)))
  end.

(** The loop of the unordered branch: look each working column up by name. *)
Fixpoint pair_by_name (df : DataFrame) (columns_to_pair : list Column)
    (errors : list ValidationWarning) (column_pairs : list (Series * Column))
  : phase (list (Series * Column)) :=
  match columns_to_pair with
  | [] => Continue column_pairs
  | c :: rest =>
      if negb (df_contains (name c) df) then
        Return (errors ++ [missing_warning (name c)])
      else
        match df_getitem (name c) df with
        | Some series => pair_by_name df rest errors (column_pairs ++ [(series, c)])
        | None => Raised (KeyError (name c))
        end
  end.

(** Second phase: [column_pairs], by position or by name. *)
Definition pair_columns (self : Schema) (df : DataFrame)
    (columns_to_pair : list Column) (errors : list ValidationWarning)
  : phase (list (Series * Column)) :=
  if ordered self then
    let series := map snd (df_iteritems df) in
    Continue (zip series (columns self))
  else
    pair_by_name df columns_to_pair errors [].

(** The validation loop: [errors += column.validate(series)] for each pair.
    The second accumulator records every call of a column's validator. *)
Fixpoint run_validations (column_pairs : list (Series * Column))
    (errors : list ValidationWarning) (calls : list (Series * Column))
  : list ValidationWarning * list (Series * Column) :=
  match column_pairs with
  | [] => (errors, calls)
  | (series, c) :: rest =>
      run_validations rest (errors ++ column_validate c series) (calls ++ [(series, c)])
  end.

(** [a <= b] on the sort keys [e.row]; Python raises TypeError when a key is
    [None]. *)
Definition row_le (a b : ValidationWarning) : option bool :=
  match row a, row b with
  | Some x, Some y => Some (x <=? y)%Z
  | _, _ => None
  end.

(** Stable insertion of [w], which preceded all of [sorted] in the input. *)
Fixpoint insert_by_row (w : ValidationWarning) (sorted : list ValidationWarning)
  : option (list ValidationWarning) :=
  match sorted with
  | [] => Some [w]
  | y :: rest =>
      match row_le w y with
      | None => None
      | Some true => Some (w :: y :: rest)
      | Some false =>
          match insert_by_row w rest with
          | Some rest' => Some (y :: rest')
          | None => None
          end
      end
  end.

(** [sorted(errors, key=lambda e: e.row)]: a stable sort on [row]; [None]
    stands for the TypeError of a comparison with a [None] key. *)
Fixpoint sorted_by_row (errors : list ValidationWarning)
  : option (list ValidationWarning) :=
  match errors with
  | [] => Some []
  | w :: rest =>
      match sorted_by_row rest with
      | Some s => insert_by_row w s
      | None => None
      end
  end.

(** The result of a call of [validate], and the validator calls it made. *)
Record Run := mkRun {
  outcome : result (list ValidationWarning);
  invoked : list (Series * Column)
}.

(** [Schema.validate] *)
Definition validate (self : Schema) (df : DataFrame)
    (subset : option (list string)) : Run :=
  let errors := [] in
  match select_columns self df subset errors with
  | Return errs => mkRun (Ok errs) []
  | Raised e => mkRun (Raise e) []
  | Continue columns_to_pair =>
      match pair_columns self df columns_to_pair errors with
      | Return errs => mkRun (Ok errs) []
      | Raised e => mkRun (Raise e) []
      | Continue column_pairs =>
          let '(errs, calls) := run_validations column_pairs errors [] in
          match sorted_by_row errs with
          | Some s => mkRun (Ok s) calls
          | None => mkRun (Raise TypeError) calls
          end
      end
  end.

(** ** validate over a store of mutable objects

    The same method with Python's mutable objects made explicit: lists, the
    [Schema] instance and the data frame live in a store and are reached
    through references, so that [errors.append], [errors +=] and
    [column_pairs.append] are updates in place and
    [columns_to_pair = self.columns] is an alias, not a copy. *)

Abbreviation loc := positive.

(** The objects a list of this program can hold. *)
Inductive PyObj :=
| ObjColumn (c : Column)
| ObjWarning (w : ValidationWarning)
| ObjSeries (s : Series)
| ObjTuple (a b : PyObj).

(** The mutable objects of the store. *)
Inductive Cell :=
| CList (items : list PyObj)
| CSchema (columns_ref : loc) (ordered_flag : bool)
| CFrame (df : DataFrame).

(** The store, and the log of the validator calls made so far. *)
Record State := mkState {
  heap : gmap loc Cell;
  log : list (Series * Column)
}.

(** Computations that read and update the store and may raise. *)
Definition M (A : Type) : Type := State -> result A * State.

Definition ret {A} (a : A) : M A := fun st => (Ok a, st).

Definition raise {A} (e : PyError) : M A := fun st => (Raise e, st).

Definition bind {A B} (m : M A) (k : A -> M B) : M B :=
  fun st =>
    match m st with
    | (Ok a, st') => k a st'
    | (Raise e, st') => (Raise e, st')
    end.

Notation "'let*' x ':=' m 'in' k" := (bind m (fun x => k))
  (at level 10, x pattern, m at level 100, k at level 200).

(** Lifting a result that does not touch the store. *)
Definition lift {A} (r : result A) : M A := fun st => (r, st).

(** A new object, at a reference that is not in use. *)
Definition alloc (c : Cell) : M loc :=
  fun st =>
    let l := fresh (dom (heap st)) in
    (Ok l, mkState (<[l := c]> (heap st)) (log st)).

(** The items of the list at [l]. *)
Definition load_list (l : loc) : M (list PyObj) :=
  fun st =>
    match heap st !! l with
    | Some (CList items) => (Ok items, st)
    | _ => (Raise TypeError, st)
    end.

(** [l.append(x)] *)
Definition list_append (l : loc) (x : PyObj) : M unit :=
  fun st =>
    match heap st !! l with
    | Some (CList items) =>
        (Ok tt, mkState (<[l := CList (items ++ [x])]> (heap st)) (log st))
    | _ => (Raise AttributeError, st)
    end.

(** [l += xs] *)
Definition list_extend (l : loc) (xs : list PyObj) : M unit :=
  fun st =>
    match heap st !! l with
    | Some (CList items) =>
        (Ok tt, mkState (<[l := CList (items ++ xs)]> (heap st)) (log st))
    | _ => (Raise TypeError, st)
    end.

(** [self.columns] *)
Definition attr_columns (self : loc) : M loc :=
  fun st =>
    match heap st !! self with
    | Some (CSchema cl _) => (Ok cl, st)
    | _ => (Raise AttributeError, st)
    end.

(** [self.ordered] *)
Definition attr_ordered (self : loc) : M bool :=
  fun st =>
    match heap st !! self with
    | Some (CSchema _ o) => (Ok o, st)
    | _ => (Raise AttributeError, st)
    end.

(** The data frame at [df], as the reads of [validate] see it. *)
Definition load_frame (df : loc) : M DataFrame :=
  fun st =>
    match heap st !! df with
    | Some (CFrame d) => (Ok d, st)
    | _ => (Raise AttributeError, st)
    end.

(** [column.validate(series)]: logged; the validator itself is a function of
    the series. *)
Definition call_validate (c : Column) (series : Series) : M (list ValidationWarning) :=
  fun st =>
    (Ok (column_validate c series), mkState (heap st) (log st ++ [(series, c)])).

(** Using an object as a [Column], a warning, a series or a pair. *)
Definition as_column (x : PyObj) : result Column :=
  match x with ObjColumn c => Ok c | _ => Raise AttributeError end.

Definition as_warning (x : PyObj) : result ValidationWarning :=
  match x with ObjWarning w => Ok w | _ => Raise AttributeError end.

Definition as_series (x : PyObj) : result Series :=
  match x with ObjSeries s => Ok s | _ => Raise AttributeError end.

Definition as_tuple (x : PyObj) : result (PyObj * PyObj) :=
  match x with ObjTuple a b => Ok (a, b) | _ => Raise TypeError end.

(** [f] on every element, stopping at the first that raises. *)
Fixpoint map_result {A B} (f : A -> result B) (l : list A) : result (list B) :=
  match l with
  | [] => Ok []
  | x :: rest =>
      match f x with
      | Raise e => Raise e
      | Ok y =>
          match map_result f rest with
          | Raise e => Raise e
          | Ok ys => Ok (y :: ys)
          end
      end
  end.

(** [zip(xs, ys)] *)
Definition py_zip (xs ys : list PyObj) : list PyObj :=
  zip_with ObjTuple xs ys.

(** [Schema.get_column_names] *)
Definition get_column_names_heap (self : loc) : M (list string) :=
  let* cl := attr_columns self in
  let* items := load_list cl in
  let* cs := lift (map_result as_column items) in
  ret (map name cs).

(** The loop of the unordered branch. [Some l] is an early [return l]. *)
Fixpoint pair_by_name_heap (frame : DataFrame) (items : list PyObj)
    (errors column_pairs : loc) : M (option loc) :=
  match items with
  | [] => ret None
  | item :: rest =>
      let* c := lift (as_column item) in
      if negb (df_contains (name c) frame) then
        let* _ := list_append errors (ObjWarning (missing_warning (name c))) in
        ret (Some errors)
      else
        match df_getitem (name c) frame with
        | Some series =>
            let* _ := list_append column_pairs (ObjTuple (ObjSeries series) (ObjColumn c)) in
            pair_by_name_heap frame rest errors column_pairs
        | None => raise (KeyError (name c))
        end
  end.

(** The validation loop. *)
Fixpoint run_validations_heap (pairs : list PyObj) (errors : loc) : M unit :=
  match pairs with
  | [] => ret tt
  | item :: rest =>
      let* p := lift (as_tuple item) in
      let* c := lift (as_column (snd p)) in
      let* series := lift (as_series (fst p)) in
      let* ws := call_validate c series in
      let* _ := list_extend errors (map ObjWarning ws) in
      run_validations_heap rest errors
  end.

(** [return sorted(errors, key=lambda e: e.row)]: a new list. *)
Definition return_sorted (errors : loc) : M loc :=
  let* items := load_list errors in
  let* ws := lift (map_result as_warning items) in
  match sorted_by_row ws with
  | Some s => alloc (CList (map ObjWarning s))
  | None => raise TypeError
  end.

(** The part of [validate] after the working list is known. *)
Definition pair_and_validate (self : loc) (frame : DataFrame)
    (columns_to_pair errors : loc) : M loc :=
  let* is_ordered := attr_ordered self in
  if is_ordered then
    let* series := alloc (CList (map (fun x => ObjSeries (snd x)) (df_iteritems frame))) in
    let* self_columns := attr_columns self in
    let* xs := load_list series in
    let* ys := load_list self_columns in
    let* _ := run_validations_heap (py_zip xs ys) errors in
    return_sorted errors
  else
    let* column_pairs := alloc (CList []) in
    let* items := load_list columns_to_pair in
    let* early := pair_by_name_heap frame items errors column_pairs in
    match early with
    | Some l => ret l
    | None =>
        let* pairs := load_list column_pairs in
        let* _ := run_validations_heap pairs errors in
        return_sorted errors
    end.

(** [Schema.validate], returning the reference of the returned list. *)
Definition validate_heap (self df : loc) (subset : option (list string)) : M loc :=
  let* errors := alloc (CList []) in
  let* frame := load_frame df in
  let df_cols := length (df_columns frame) in
  match subset with
  | None =>
      let* self_columns := attr_columns self in
      let* items := load_list self_columns in
      let schema_cols := length items in
      let columns_to_pair := self_columns in
      if negb (df_cols =? schema_cols)%nat then
        let* _ := list_append errors (ObjWarning (count_warning schema_cols df_cols)) in
        ret errors
      else
        pair_and_validate self frame columns_to_pair errors
  | Some names =>
      let* schema_names := get_column_names_heap self in
      if issubset names schema_names then
        let* self_columns := attr_columns self in
        let* items := load_list self_columns in
        let* cs := lift (map_result as_column items) in
        let* columns_to_pair :=
          alloc (CList (map ObjColumn
                          (filter (fun c => name c ∈ names) cs))) in
        pair_and_validate self frame columns_to_pair errors
      else
        let* self_columns := attr_columns self in
        let* items := load_list self_columns in
        let* cs := lift (map_result as_column items) in
        raise (PanSchArgumentError (difference_Columns names cs))
  end.

(** A caller that makes several calls in a row on one schema, each with its
    own data frame and subset, whatever each call returns or raises. *)
Fixpoint validate_many (self : loc) (calls : list (loc * option (list string)))
    (st : State) : State :=
  match calls with
  | [] => st
  | (df, subset) :: rest => validate_many self rest (snd (validate_heap self df subset st))
  end.

(** A store in which [self] is the schema [s] and [df] the data frame [d]. *)
Definition holds_schema (st : State) (self : loc) (s : Schema) : Prop :=
  exists cl,
    heap st !! self = Some (CSchema cl (ordered s)) /\
    heap st !! cl = Some (CList (map ObjColumn (columns s))).

Definition holds_frame (st : State) (df : loc) (d : DataFrame) : Prop :=
  heap st !! df = Some (CFrame d).

(** The warnings of the list at [l], when it is a list of warnings. *)
Definition warnings_at (st : State) (l : loc) : option (list ValidationWarning) :=
  match heap st !! l with
  | Some (CList items) =>
      match map_result as_warning items with
      | Ok ws => Some ws
      | Raise _ => None
      end
  | _ => None
  end.

(** ** Notions used in the statements *)

(** [m], run from a store that extends [h0], ends in a store that extends
    [h0], and its value satisfies [Q]: [m] changes no object of [h0]. *)
Definition keeps (h0 : gmap loc Cell) {A} (m : M A) (Q : A -> Prop) : Prop :=
  forall st, h0 ⊆ heap st ->
    h0 ⊆ heap (snd (m st)) /\ forall a, fst (m st) = Ok a -> Q a.

(** The result [r] of a run over the store, started in [st], is the
    result [run] of the functional model: same validator calls, and the
    same warnings in the returned list, or the same exception. *)
Definition agrees (r : result loc * State) (st : State) (run : Run) : Prop :=
  log (snd r) = log st ++ invoked run /\
  match outcome run with
  | Ok ws => exists l, fst r = Ok l /\ heap (snd r) !! l = Some (CList (map ObjWarning ws))
  | Raise e => fst r = Raise e
  end.

(** The pair the validation loop reads for a series and a column. *)
Definition tuple_of (p : Series * Column) : PyObj :=
  ObjTuple (ObjSeries (fst p)) (ObjColumn (snd p)).

(** The string [s] occurs in [t]. *)
Definition mentions (s t : string) : Prop :=
  exists pre post, t = pre +:+ s +:+ post.

(** The call gets past the checks on [subset]: with no subset the column
    counts agree, with a subset every name is a schema column name. *)
Definition accepted (self : Schema) (df : DataFrame)
    (subset : option (list string)) : Prop :=
  match subset with
  | None => length (df_columns df) = length (columns self)
  | Some names => forall n, n ∈ names -> n ∈ get_column_names self
  end.

(** The working list of an accepted call. *)
Definition working_list (self : Schema) (subset : option (list string)) : list Column :=
  match subset with
  | None => columns self
  | Some names => filter (fun c => name c ∈ names) (columns self)
  end.

(** The pair the unordered branch builds for a column the frame has. *)
Definition by_name (df : DataFrame) (c : Column) : Series * Column :=
  (default [] (df_getitem (name c) df), c).

(** Cell-level validation runs on [pairs]: both phases go through. *)
Definition paired (self : Schema) (df : DataFrame)
    (subset : option (list string)) (pairs : list (Series * Column)) : Prop :=
  exists columns_to_pair,
    select_columns self df subset [] = Continue columns_to_pair /\
    pair_columns self df columns_to_pair [] = Continue pairs.

(** The warnings the validators of [pairs] emit, in emission order. *)
Definition emitted (pairs : list (Series * Column)) : list ValidationWarning :=
  flat_map (fun p => column_validate (snd p) (fst p)) pairs.

(** Ascending order on [row], for warnings that carry an integer row. *)
Definition row_leq (a b : ValidationWarning) : Prop :=
  match row a, row b with
  | Some x, Some y => (x <= y)%Z
  | _, _ => False
  end.

(** The warnings of [l] whose row is [r], in their order in [l]. *)
Definition with_row (r : option Z) (l : list ValidationWarning) : list ValidationWarning :=
  filter (fun w => row w = r) l.

(** ** Sample columns and frames for the examples *)

(** A cell-level warning of column [c] at row [r]. *)
Definition cell_warning (c : string) (r : Z) : ValidationWarning :=
  {| message := "is not valid"; value := Some (PyInt 0);
     row := Some r; column := Some c |}.

(** Validators with fixed findings, in the order they emit them. *)
Definition col_a : Column :=
  mkColumn "a" (fun _ => [cell_warning "a" 5; cell_warning "a" 1; cell_warning "a" 3]).

Definition col_b : Column :=
  mkColumn "b" (fun _ => [cell_warning "b" 1; cell_warning "b" 2]).

Definition col_c : Column := mkColumn "c" (fun _ => []).

(** A validator that reads its series: every cell that is not an [int] is
    reported with its row index. *)
Fixpoint non_int_cells (c : string) (i : Z) (series : Series) : list ValidationWarning :=
  match series with
  | [] => []
  | PyInt _ :: rest => non_int_cells c (i + 1) rest
  | v :: rest =>
      {| message := "is not an int"; value := Some v; row := Some i; column := Some c |}
      :: non_int_cells c (i + 1) rest
  end.

Definition int_column (c : string) : Column := mkColumn c (non_int_cells c 0).

Definition frame_a : DataFrame := [("a", [PyInt 1; PyStr "x"])].

Definition frame_ab : DataFrame := [("a", [PyInt 1; PyStr "x"]); ("b", [PyInt 2; PyInt 3])].

Definition frame_abc : DataFrame :=
  [("a", [PyInt 1; PyStr "x"]); ("b", [PyInt 2; PyInt 3]); ("c", [PyBool true; PyInt 4])].

Definition frame_pq : DataFrame := [("p", [PyInt 1; PyStr "u"]); ("q", [PyStr "v"; PyInt 2])].


(** A store with the schema a, b (unordered) at reference 1, its list of
    columns at 2 and the frame [frame_ab] at 3. *)
Definition sample_store : State :=
  mkState (<[3%positive := CFrame frame_ab]>
             (<[2%positive := CList [ObjColumn col_a; ObjColumn col_b]]>
                (<[1%positive := CSchema 2 false]> ∅)))
          [].

(* ===================================================================== *)
(** * Part II: properties                                                 *)
(* ===================================================================== *)

(** ** Data frame lookups *)

Lemma df_contains_true n df : df_contains n df = true <-> n ∈ df_columns df.
Proof. unfold df_contains. apply bool_decide_eq_true. Qed.

Lemma df_contains_false n df : df_contains n df = false <-> n ∉ df_columns df.
Proof. unfold df_contains. apply bool_decide_eq_false. Qed.

Lemma df_getitem_is_Some n df : n ∈ df_columns df -> is_Some (df_getitem n df).
Proof.
  induction df as [|[label series] df IH]; simpl.
  - intros H. by apply elem_of_nil in H.
  - intros H. destruct (String.eqb label n) eqn:E; [eauto|].
    apply elem_of_cons in H as [-> | H]; [|by apply IH].
    by rewrite String.eqb_refl in E.
Qed.

(** ** The phases of validate *)

Lemma issubset_true names schema_names :
  issubset names schema_names = true <-> (forall n, n ∈ names -> n ∈ schema_names).
Proof.
  unfold issubset, py_set. rewrite forallb_forall. split.
  - intros H n Hn. eapply bool_decide_eq_true. apply H.
    apply list_elem_of_In. by apply elem_of_remove_dups.
  - intros H n Hn. apply bool_decide_eq_true. apply H.
    apply elem_of_remove_dups. by apply list_elem_of_In.
Qed.

Lemma difference_Columns_all names cols : difference_Columns names cols = py_set names.
Proof.
  unfold difference_Columns. generalize (py_set names) as l.
  induction l as [|n l IH]; [done|].
  rewrite filter_cons. replace (existsb (str_eq_Column n) cols) with false.
  - simpl. by rewrite IH.
  - clear. induction cols; simpl; auto.
Qed.

Lemma select_columns_mismatch self df errors :
  length (df_columns df) <> length (columns self) ->
  select_columns self df None errors =
    Return (errors ++ [count_warning (length (columns self)) (length (df_columns df))]).
Proof.
  intros H. unfold select_columns.
  destruct (Nat.eqb_spec (length (df_columns df)) (length (columns self))); done.
Qed.

Lemma select_columns_accepted self df subset errors :
  accepted self df subset ->
  select_columns self df subset errors = Continue (working_list self subset).
Proof.
  destruct subset as [names|]; simpl; intros H.
  - apply issubset_true in H. by rewrite H.
  - rewrite H. by rewrite Nat.eqb_refl.
Qed.

Lemma select_columns_rejected self df names errors :
  ~ (forall n, n ∈ names -> n ∈ get_column_names self) ->
  select_columns self df (Some names) errors =
    Raised (PanSchArgumentError (py_set names)).
Proof.
  intros H. simpl. destruct (issubset _ _) eqn:E.
  - destruct H. by apply issubset_true.
  - by rewrite difference_Columns_all.
Qed.

Lemma select_columns_Continue self df subset errors l :
  select_columns self df subset errors = Continue l ->
  accepted self df subset /\ l = working_list self subset.
Proof.
  destruct subset as [names|]; simpl.
  - destruct (issubset _ _) eqn:E; [|discriminate].
    intros [= <-]. split; [by apply issubset_true | done].
  - destruct (Nat.eqb_spec (length (df_columns df)) (length (columns self)));
      simpl; [|discriminate].
    by intros [= <-].
Qed.

Lemma pair_by_name_present df l errors acc :
  Forall (fun c => name c ∈ df_columns df) l ->
  pair_by_name df l errors acc = Continue (acc ++ map (by_name df) l).
Proof.
  intros H. revert acc. induction H as [|c l Hc _ IH]; intros acc; simpl.
  - by rewrite app_nil_r.
  - apply df_contains_true in Hc as Hb. rewrite Hb. simpl.
    destruct (df_getitem_is_Some _ _ Hc) as [series Hs].
    rewrite Hs, IH, <- app_assoc. unfold by_name at 2. by rewrite Hs.
Qed.

Lemma pair_by_name_missing df pre c post errors acc :
  Forall (fun c => name c ∈ df_columns df) pre ->
  name c ∉ df_columns df ->
  pair_by_name df (pre ++ c :: post) errors acc =
    Return (errors ++ [missing_warning (name c)]).
Proof.
  intros H Hc. revert acc. induction H as [|c' l Hc' _ IH]; intros acc; simpl.
  - apply df_contains_false in Hc. by rewrite Hc.
  - apply df_contains_true in Hc' as Hb. rewrite Hb. simpl.
    destruct (df_getitem_is_Some _ _ Hc') as [series ->]. apply IH.
Qed.

(** Either every column of the list is in the frame, or there is a first
    one that is not. *)
Lemma first_missing df (l : list Column) :
  Forall (fun c => name c ∈ df_columns df) l \/
  exists pre c post,
    l = pre ++ c :: post /\
    Forall (fun c => name c ∈ df_columns df) pre /\
    name c ∉ df_columns df.
Proof.
  induction l as [|c l IH]; [by left|].
  destruct (decide (name c ∈ df_columns df)) as [Hc|Hc].
  - destruct IH as [IH | (pre & c' & post & -> & Hpre & Hc')].
    + left. by constructor.
    + right. exists (c :: pre), c', post. repeat split; [by constructor | done].
  - right. exists [], c, l. by repeat split.
Qed.

Lemma run_validations_spec pairs errors calls :
  run_validations pairs errors calls = (errors ++ emitted pairs, calls ++ pairs).
Proof.
  revert errors calls. induction pairs as [|[series c] pairs IH]; intros; simpl.
  - by rewrite !app_nil_r.
  - rewrite IH. unfold emitted. simpl. by rewrite <- !app_assoc.
Qed.

(** What [validate] does once both phases went through. *)
Lemma validate_paired self df subset pairs :
  paired self df subset pairs ->
  validate self df subset =
    match sorted_by_row (emitted pairs) with
    | Some s => mkRun (Ok s) pairs
    | None => mkRun (Raise TypeError) pairs
    end.
Proof.
  intros (ctp & H1 & H2). unfold validate. rewrite H1, H2.
  by rewrite run_validations_spec.
Qed.

(** The ways a call of [validate] can end. *)
Lemma validate_cases self df subset :
  (exists w, validate self df subset = mkRun (Ok [w]) []) \/
  (exists shown, validate self df subset = mkRun (Raise (PanSchArgumentError shown)) []) \/
  (exists pairs, paired self df subset pairs).
Proof.
  destruct (select_columns self df subset []) as [ctp|errs|e] eqn:E1.
  - destruct (pair_columns self df ctp []) as [pairs|errs|e] eqn:E2.
    + right. right. exists pairs, ctp. by split.
    + left. unfold validate. rewrite E1, E2.
      unfold pair_columns in E2. destruct (ordered self); [discriminate|].
      destruct (first_missing df ctp) as [H | (pre & c & post & -> & Hpre & Hc)].
      * by rewrite pair_by_name_present in E2.
      * rewrite pair_by_name_missing in E2 by done. injection E2 as <-. eauto.
    + exfalso. unfold pair_columns in E2. destruct (ordered self); [discriminate|].
      destruct (first_missing df ctp) as [H | (pre & c & post & -> & Hpre & Hc)].
      * by rewrite pair_by_name_present in E2.
      * by rewrite pair_by_name_missing in E2.
  - left. unfold validate. rewrite E1. destruct subset as [names|]; simpl in E1.
    + destruct (issubset _ _); discriminate.
    + destruct (negb _); [|discriminate]. injection E1 as <-. eauto.
  - right. left. unfold validate. rewrite E1. destruct subset as [names|]; simpl in E1.
    + destruct (issubset _ _); [discriminate|]. injection E1 as <-. eauto.
    + destruct (negb _); discriminate.
Qed.

(** ** Sorting by row *)

Lemma insert_by_row_perm w s s' :
  insert_by_row w s = Some s' -> Permutation (w :: s) s'.
Proof.
  revert s'. induction s as [|y s IH]; intros s'; simpl.
  - by intros [= <-].
  - destruct (row_le w y) as [[]|]; [by intros [= <-] | | discriminate].
    destruct (insert_by_row w s) as [s''|]; [|discriminate].
    intros [= <-]. rewrite perm_swap. constructor. by apply IH.
Qed.

Lemma sorted_by_row_perm l s : sorted_by_row l = Some s -> Permutation l s.
Proof.
  revert s. induction l as [|w l IH]; intros s; simpl.
  - by intros [= <-].
  - destruct (sorted_by_row l) as [s0|]; [|discriminate].
    intros H. apply insert_by_row_perm in H. rewrite <- H. constructor. by apply IH.
Qed.

Lemma row_leq_trans a b c : row_leq a b -> row_leq b c -> row_leq a c.
Proof.
  unfold row_leq. destruct (row a), (row b), (row c); try done. lia.
Qed.

(** Whenever the insertion succeeds, it keeps the order and is stable. *)
Lemma insert_by_row_sorted w s s' :
  StronglySorted row_leq s ->
  insert_by_row w s = Some s' ->
  StronglySorted row_leq s' /\ forall r, with_row r s' = with_row r (w :: s).
Proof.
  intros Hs. revert s'. induction Hs as [|y s Hs IH Hy]; intros s'; simpl.
  - intros [= <-]. split; [repeat constructor | done].
  - unfold row_le. destruct (row w) as [x|] eqn:Hx; [|discriminate].
    destruct (row y) as [z|] eqn:Hz; [|discriminate].
    destruct (Z.leb_spec x z) as [Hle|Hgt].
    + intros [= <-]. split; [|done].
      assert (row_leq w y) as Hwy by (unfold row_leq; by rewrite Hx, Hz).
      constructor; [by constructor|]. constructor; [done|].
      eapply Forall_impl; [exact Hy|]. intros v Hv. by eapply row_leq_trans.
    + destruct (insert_by_row w s) as [s''|] eqn:Hins; [|discriminate].
      intros [= <-]. destruct (IH _ eq_refl) as [Hsort Hstab]. split.
      * constructor; [done|].
        apply insert_by_row_perm in Hins. rewrite <- Hins. constructor; [|done].
        unfold row_leq. rewrite Hx, Hz. lia.
      * intros r. unfold with_row in *. rewrite !filter_cons, Hstab, filter_cons.
        repeat case_decide; try done.
        exfalso. subst r. rewrite Hx, Hz in *. simplify_eq. lia.
Qed.

(** Whenever [sorted_by_row] returns, its result holds the warnings of the
    input, in ascending order of row, and keeps, for every row, the warnings
    of that row in their input order. *)
Lemma sorted_by_row_sound l s :
  sorted_by_row l = Some s ->
  Permutation l s /\
  StronglySorted row_leq s /\
  forall r, with_row r s = with_row r l.
Proof.
  intros H. split; [by apply sorted_by_row_perm|]. revert s H.
  induction l as [|w l IH]; intros s; simpl.
  - intros [= <-]. split; [constructor | done].
  - destruct (sorted_by_row l) as [s0|]; [|discriminate]. intros Hins.
    destruct (IH _ eq_refl) as [Hsort Hstab].
    destruct (insert_by_row_sorted _ _ _ Hsort Hins) as [Hsort' Hstab'].
    split; [done|]. intros r. rewrite Hstab'. unfold with_row in *.
    by rewrite !filter_cons, Hstab.
Qed.

Lemma insert_by_row_total w s :
  is_Some (row w) -> Forall (fun y => is_Some (row y)) s -> is_Some (insert_by_row w s).
Proof.
  intros [x Hx]. induction 1 as [|y s [z Hz] _ IH]; simpl; [done|].
  unfold row_le. rewrite Hx, Hz. destruct (x <=? z)%Z; [done|].
  by destruct IH as [s' ->].
Qed.

(** On warnings that all carry an integer row, [sorted_by_row] returns. *)
Lemma sorted_by_row_total l :
  Forall (fun w => is_Some (row w)) l -> is_Some (sorted_by_row l).
Proof.
  induction 1 as [|w l Hw Hl [s Hs]]; simpl; [done|].
  rewrite Hs. apply insert_by_row_total; [done|].
  apply sorted_by_row_perm in Hs. by rewrite <- Hs.
Qed.

Lemma sorted_by_row_spec l :
  Forall (fun w => is_Some (row w)) l ->
  exists s,
    sorted_by_row l = Some s /\
    Permutation l s /\
    StronglySorted row_leq s /\
    forall r, with_row r s = with_row r l.
Proof.
  intros H. destruct (sorted_by_row_total l H) as [s Hs].
  exists s. split; [done|]. by apply sorted_by_row_sound.
Qed.



Lemma StronglySorted_lookup {A} (R : A -> A -> Prop) (l : list A) i j x y :
  StronglySorted R l -> (i < j)%nat -> l !! i = Some x -> l !! j = Some y -> R x y.
Proof.
  intros Hs. revert i j. induction Hs as [|a l Hs IH Ha]; intros i j Hij Hi Hj.
  - done.
  - destruct j as [|j]; [lia|]. simpl in Hj. destruct i as [|i]; simpl in Hi.
    + injection Hi as ->. rewrite Forall_forall in Ha. apply Ha.
      by eapply list_elem_of_lookup_2.
    + apply (IH i j); [lia | done | done].
Qed.

(** In a list in ascending order of row, a smaller row comes first. *)
Lemma sorted_smaller_row_first s i j w1 w2 a b :
  StronglySorted row_leq s ->
  s !! i = Some w1 -> s !! j = Some w2 ->
  row w1 = Some a -> row w2 = Some b -> (a < b)%Z ->
  (i < j)%nat.
Proof.
  intros Hs Hi Hj Ha Hb Hab.
  destruct (Nat.lt_trichotomy i j) as [H | [-> | H]]; [done | |].
  - rewrite Hi in Hj. injection Hj as ->. rewrite Ha in Hb. injection Hb as ->. lia.
  - pose proof (StronglySorted_lookup _ _ _ _ _ _ Hs H Hj Hi) as Hle.
    unfold row_leq in Hle. rewrite Ha, Hb in Hle. lia.
Qed.

(** ** Rendering of a warning *)

Lemma str_all_present (w : ValidationWarning) r c v :
  row w = Some r -> column w = Some c -> value w = Some v ->
  __str__ w = full_form r c v (message w).
Proof. unfold __str__, full_form. by intros -> -> ->. Qed.

Lemma str_some_absent (w : ValidationWarning) :
  is_not_None (row w) && is_not_None (column w) && is_not_None (value w) = false ->
  __str__ w = message w.
Proof.
  unfold __str__.
  destruct (row w), (column w), (value w); simpl; congruence.
Qed.

Lemma length_append (s t : string) :
  String.length (s +:+ t) = (String.length s + String.length t)%nat.
Proof. induction s as [|a s IH]; simpl; [done | by rewrite IH]. Qed.

Lemma full_form_longer r c v m :
  (String.length m < String.length (full_form r c v m))%nat.
Proof.
  unfold full_form.
  rewrite !length_append. simpl. lia.
Qed.

Lemma full_form_not_message r c v m : full_form r c v m <> m.
Proof.
  intros H. pose proof (full_form_longer r c v m) as Hlt.
  rewrite H in Hlt. lia.
Qed.

(** C7, at the input where the code departs from it: a warning with a
    column and a value whose row was left at its default [-1] is rendered
    in the full form, with [row: -1], and not as the bare message. *)
Theorem str_default_row_renders_full_form :
  let w := {| message := "bad value"; value := Some (PyInt 7);
              row := default_row; column := Some "x" |} in
  __str__ w = "{row: -1, column: " +:+ dquote +:+ "x" +:+ dquote +:+ "}: "
              +:+ dquote +:+ "7" +:+ dquote +:+ " bad value"
  /\ __str__ w = full_form (-1) "x" (PyInt 7) "bad value"
  /\ __str__ w <> message w.
Proof.
  split; [reflexivity | split; [reflexivity | ]].
  vm_compute. discriminate.
Qed.

(** ** Construction *)

(** What [Schema.__init__] does on every argument: it raises the
    invalid-schema error exactly when [columns] has a truth value and is
    [None] or empty, or is not a list, or [ordered] is not a [bool]; the
    one other exception is the ValueError of [not columns] on an object
    without a truth value; a non-empty list with a [bool] builds the
    schema; and [validate] never raises the invalid-schema error. *)
Lemma Schema_init_spec (cols : ColumnsArg) (ord : OrderedArg) :
  ((exists msg, Schema_init cols ord = Raise (PanSchInvalidSchemaError msg)) <->
   cols <> ArgAmbiguous /\
   ((cols = ArgNone \/ cols = ArgList []) \/
    (forall cs, cols <> ArgList cs) \/
    ord = OrdOther))
  /\ (forall e, Schema_init cols ord = Raise e ->
       (exists msg, e = PanSchInvalidSchemaError msg) \/
       (e = ValueError /\ cols = ArgAmbiguous))
  /\ (forall cs b, cols = ArgList cs -> ord = OrdBool b -> cs <> [] ->
       Schema_init cols ord = Ok {| columns := cs; ordered := b |})
  /\ (forall (s : Schema) df subset msg,
       outcome (validate s df subset) <> Raise (PanSchInvalidSchemaError msg)).
Proof.
  split_and!.
  - split.
    + intros [msg H]. unfold Schema_init in H.
      destruct cols as [|[|c cs]|cs|t|]; destruct ord; simpl in H;
        try discriminate; (split; [discriminate|]); eauto;
        right; left; intros; discriminate.
    + intros [Hdef [[-> | ->] | [H | ->]]]; unfold Schema_init; simpl; eauto.
      * destruct cols as [|[|c cs]|[|c cs]|[]|]; simpl; eauto; [|done].
        by destruct (H (c :: cs)).
      * destruct cols as [|[|c cs]|[|c cs]|[]|]; simpl; eauto. done.
  - intros e H. unfold Schema_init in H.
    destruct cols as [|[|c cs]|[|c cs]|[]|]; destruct ord; simpl in H;
      inversion H; eauto.
  - intros cs b -> -> Hne. destruct cs; [done | reflexivity].
  - intros s df subset msg.
    destruct (validate_cases s df subset) as [[w ->] | [[shown ->] | [pairs H]]];
      simpl; try discriminate.
    rewrite (validate_paired _ _ _ _ H).
    destruct (sorted_by_row _); simpl; discriminate.
Qed.

(** C8, at the input where the code departs from it: for a [columns]
    argument without a truth value (a numpy array of several columns, a
    pandas Series or DataFrame), which is not a list, [not columns] raises
    ValueError before the test [isinstance(columns, List)] is reached, so
    the construction fails with ValueError and not with the invalid-schema
    error, whatever [ordered] is. *)
Theorem Schema_init_ambiguous_truth_raises_ValueError (ord : OrderedArg) :
  isinstance_List ArgAmbiguous = false /\
  Schema_init ArgAmbiguous ord = Raise ValueError /\
  (forall msg, Schema_init ArgAmbiguous ord <> Raise (PanSchInvalidSchemaError msg)).
Proof. split_and!; [reflexivity | reflexivity | discriminate]. Qed.

(** ** Column-count check *)

Lemma append_assoc (s t u : string) : (s +:+ t) +:+ u = s +:+ t +:+ u.
Proof.
  induction s as [|a s IH]; [done|].
  change (String a ((s +:+ t) +:+ u) = String a (s +:+ t +:+ u)). by rewrite IH.
Qed.

Lemma append_nil_r (s : string) : s +:+ EmptyString = s.
Proof.
  induction s as [|a s IH]; [done|].
  change (String a (s +:+ EmptyString) = String a s). by rewrite IH.
Qed.

(** C1: with no subset and a table whose column count differs from the
    schema's, [validate] returns exactly one warning, whose message mentions
    both counts and whose row, column and value are left at their defaults,
    and no validator is called. *)
Theorem validate_count_mismatch (self : Schema) (df : DataFrame) :
  length (df_columns df) <> length (columns self) ->
  exists w,
    validate self df None = mkRun (Ok [w]) [] /\
    row w = default_row /\ column w = None /\ value w = None /\
    mentions (str_of_nat (length (columns self))) (message w) /\
    mentions (str_of_nat (length (df_columns df))) (message w).
Proof.
  intros H. exists (count_warning (length (columns self)) (length (df_columns df))).
  split.
  - unfold validate. by rewrite select_columns_mismatch.
  - repeat split.
    + by eexists _, _.
    + exists ("Invalid number of columns. The schema specifies "
               +:+ str_of_nat (length (columns self)) +:+ ", but the data frame has "),
             EmptyString.
      unfold count_warning, schema_warning. cbn [message].
      by rewrite append_nil_r, !append_assoc.
Qed.

Lemma validate_count_mismatch_witness :
  exists w,
    validate (mkSchema [col_a; col_b] false) frame_abc None = mkRun (Ok [w]) [] /\
    row w = default_row /\ column w = None /\ value w = None /\
    mentions (str_of_nat (length (columns (mkSchema [col_a; col_b] false)))) (message w) /\
    mentions (str_of_nat (length (df_columns frame_abc))) (message w).
Proof. apply (validate_count_mismatch (mkSchema [col_a; col_b] false) frame_abc). simpl. lia. Defined.

(** ** A schema column missing from the table *)

(** C2, as stated, fails: with no subset the column-count check comes
    first, so for the schema a, b and a table with the single column a the
    one warning returned is the count warning, which carries no column. *)
Lemma missing_column_behind_count_check :
  let self := mkSchema [col_a; col_b] false in
  ordered self = false /\
  col_b ∈ working_list self None /\
  (name col_b ∉ df_columns frame_a) /\
  validate self frame_a None = mkRun (Ok [count_warning 2 1]) [] /\
  ~ (exists w, outcome (validate self frame_a None) = Ok [w] /\ column w = Some "b").
Proof.
  repeat split.
  - simpl. apply elem_of_cons. right. apply elem_of_cons. by left.
  - simpl. intros H. apply elem_of_cons in H as [H|H]; [discriminate|].
    by apply elem_of_nil in H.
  - intros (w & H & Hc). vm_compute in H. injection H as <-. discriminate.
Qed.

(** C2, amended: in unordered mode, once the call is past the checks of the
    first phase (no subset and equal column counts, or a subset of the schema's
    names), if some column of the working list is not in the table then
    [validate] returns exactly one warning, for the first such column: it
    carries that column's name, the default row [-1] and no value, says
    that the column exists in the schema but not in the data frame, and no
    validator is called. *)
Theorem validate_missing_column (self : Schema) (df : DataFrame)
    (subset : option (list string)) :
  ordered self = false ->
  accepted self df subset ->
  (exists c, c ∈ working_list self subset /\ name c ∉ df_columns df) ->
  exists pre c post,
    working_list self subset = pre ++ c :: post /\
    Forall (fun c' => name c' ∈ df_columns df) pre /\
    (name c ∉ df_columns df) /\
    validate self df subset = mkRun (Ok [missing_warning (name c)]) [] /\
    column (missing_warning (name c)) = Some (name c) /\
    row (missing_warning (name c)) = default_row /\
    value (missing_warning (name c)) = None /\
    message (missing_warning (name c)) =
      "The column " +:+ name c +:+ " exists in the schema but not in the data frame".
Proof.
  intros Ho Hacc (c0 & Hin & Hmiss).
  destruct (first_missing df (working_list self subset))
    as [Hall | (pre & c & post & Hsplit & Hpre & Hc)].
  - rewrite Forall_forall in Hall. by destruct Hmiss; apply Hall.
  - exists pre, c, post. repeat split; try done.
    unfold validate. rewrite (select_columns_accepted _ _ _ _ Hacc).
    unfold pair_columns. rewrite Ho, Hsplit.
    by rewrite pair_by_name_missing.
Qed.

Lemma validate_missing_column_witness :
  exists pre c post,
    working_list (mkSchema [col_a; col_b] false) (Some ["a"; "b"]) = pre ++ c :: post /\
    Forall (fun c' => name c' ∈ df_columns frame_a) pre /\
    (name c ∉ df_columns frame_a) /\
    validate (mkSchema [col_a; col_b] false) frame_a (Some ["a"; "b"]) =
      mkRun (Ok [missing_warning (name c)]) [] /\
    column (missing_warning (name c)) = Some (name c) /\
    row (missing_warning (name c)) = default_row /\
    value (missing_warning (name c)) = None /\
    message (missing_warning (name c)) =
      "The column " +:+ name c +:+ " exists in the schema but not in the data frame".
Proof.
  apply (validate_missing_column (mkSchema [col_a; col_b] false) frame_a (Some ["a"; "b"])).
  - reflexivity.
  - simpl. intros n Hn. exact Hn.
  - exists col_b. split.
    + vm_compute. apply elem_of_cons. right. apply elem_of_cons. by left.
    + simpl. intros H. apply elem_of_cons in H as [H|H]; [discriminate|].
      by apply elem_of_nil in H.
Defined.

(** ** A subset that is not part of the schema *)

(** A subset with a name outside the schema makes [validate] raise the
    argument error before any pairing, whatever [ordered] is; the set the
    message prints is the whole of [set(columns)]. *)
Lemma validate_rejected (self : Schema) (df : DataFrame) (names : list string) :
  ~ (forall n, n ∈ names -> n ∈ get_column_names self) ->
  validate self df (Some names) =
    mkRun (Raise (PanSchArgumentError (py_set names))) [].
Proof.
  intros H. unfold validate. by rewrite select_columns_rejected.
Qed.

(** C6, at the input where the code departs from it: for the schema a, b
    and the subset a, z the argument error is raised and no list is
    returned, but the set printed in the message holds a as well as z,
    although a is a column of the schema. *)
Theorem validate_argument_error_names_whole_subset :
  let self := mkSchema [col_a; col_b] false in
  validate self frame_ab (Some ["a"; "z"]) =
    mkRun (Raise (PanSchArgumentError ["a"; "z"])) [] /\
  "a" ∈ get_column_names self /\
  "z" ∉ get_column_names self.
Proof.
  repeat split.
  - simpl. apply elem_of_cons. by left.
  - simpl. intros H. repeat (apply elem_of_cons in H as [H|H]; [discriminate|]).
    by apply elem_of_nil in H.
Qed.

(** ** Pairing by position *)

Lemma lookup_map {A B} (f : A -> B) (l : list A) (i : nat) :
  map f l !! i = f <$> (l !! i).
Proof. revert i. induction l as [|x l IH]; intros [|i]; simpl; auto. Qed.

Lemma validate_ordered (self : Schema) (df : DataFrame) (subset : option (list string)) :
  ordered self = true ->
  accepted self df subset ->
  paired self df subset (zip (map snd df) (columns self)).
Proof.
  intros Ho Hacc. exists (working_list self subset). split.
  - by apply select_columns_accepted.
  - unfold pair_columns. by rewrite Ho.
Qed.

(** C4: in ordered mode, on a table with as many columns as the schema,
    [validate] calls the validator of the i-th schema column on the series
    of the i-th table column, for every i and in that order; the labels of
    the table play no part in the result. *)
Theorem validate_ordered_pairs_by_position (self : Schema) (df : DataFrame)
    (subset : option (list string)) :
  ordered self = true ->
  length (df_columns df) = length (columns self) ->
  accepted self df subset ->
  invoked (validate self df subset) = zip (map snd df) (columns self) /\
  length (invoked (validate self df subset)) = length (columns self) /\
  (forall i label series c,
     df !! i = Some (label, series) -> columns self !! i = Some c ->
     invoked (validate self df subset) !! i = Some (series, c)) /\
  outcome (validate self df subset) =
    match sorted_by_row (emitted (zip (map snd df) (columns self))) with
    | Some s => Ok s
    | None => Raise TypeError
    end /\
  (forall df', map snd df' = map snd df ->
     validate self df' subset = validate self df subset).
Proof.
  intros Ho Hlen Hacc.
  pose proof (validate_paired _ _ _ _ (validate_ordered _ _ _ Ho Hacc)) as Hv.
  assert (invoked (validate self df subset) = zip (map snd df) (columns self)) as Hinv.
  { rewrite Hv. by destruct (sorted_by_row _). }
  repeat split.
  - done.
  - rewrite Hinv, length_zip_with, length_map.
    unfold df_columns in Hlen. rewrite length_map in Hlen. lia.
  - intros i label series c Hi Hc. rewrite Hinv. apply lookup_zip_Some. split; [|done].
    rewrite lookup_map. unfold DataFrame in *. by rewrite Hi.
  - rewrite Hv. by destruct (sorted_by_row _).
  - intros df' Hsame.
    assert (accepted self df' subset) as Hacc'.
    { destruct subset as [names|]; [done|]. simpl in *.
      unfold df_columns in *. rewrite length_map in *.
      rewrite <- Hacc, <- (length_map snd df'), Hsame. by rewrite length_map. }
    rewrite (validate_paired _ _ _ _ (validate_ordered _ _ _ Ho Hacc')), Hv.
    by rewrite Hsame.
Qed.

Lemma validate_ordered_pairs_by_position_witness :
  invoked (validate (mkSchema [int_column "x"; int_column "y"] true) frame_pq None) =
    zip (map snd frame_pq) (columns (mkSchema [int_column "x"; int_column "y"] true)) /\
  outcome (validate (mkSchema [int_column "x"; int_column "y"] true) frame_pq None) =
    Ok [ {| message := "is not an int"; value := Some (PyStr "v");
            row := Some 0%Z; column := Some "y" |};
         {| message := "is not an int"; value := Some (PyStr "u");
            row := Some 1%Z; column := Some "x" |} ].
Proof.
  pose proof (validate_ordered_pairs_by_position
                (mkSchema [int_column "x"; int_column "y"] true) frame_pq None
                eq_refl eq_refl eq_refl) as (H1 & _ & _ & H4 & _).
  split; [exact H1 | exact H4].
Defined.

(** C10: in ordered mode the count check still decides a call without a
    subset; with a subset of the schema's names the pairing zips the table's
    columns with all the schema's columns, whatever the subset selects, and
    stops at the shorter of the two: the columns beyond it are not
    validated, and every warning returned comes from a validator that was
    paired. *)
Theorem validate_ordered_subset_truncates (self : Schema) (df : DataFrame)
    (names : list string) :
  ordered self = true ->
  (forall n, n ∈ names -> n ∈ get_column_names self) ->
  invoked (validate self df (Some names)) = zip (map snd df) (columns self) /\
  length (invoked (validate self df (Some names))) =
    Nat.min (length df) (length (columns self)) /\
  outcome (validate self df (Some names)) =
    match sorted_by_row (emitted (zip (map snd df) (columns self))) with
    | Some s => Ok s
    | None => Raise TypeError
    end /\
  (forall ws, outcome (validate self df (Some names)) = Ok ws ->
     Permutation (emitted (zip (map snd df) (columns self))) ws) /\
  (Forall (fun w => is_Some (row w)) (emitted (zip (map snd df) (columns self))) ->
     exists ws, outcome (validate self df (Some names)) = Ok ws) /\
  (length (df_columns df) <> length (columns self) ->
     validate self df None =
       mkRun (Ok [count_warning (length (columns self)) (length (df_columns df))]) []).
Proof.
  intros Ho Hsub.
  pose proof (validate_paired _ _ _ _ (validate_ordered self df (Some names) Ho Hsub)) as Hv.
  assert (invoked (validate self df (Some names)) = zip (map snd df) (columns self)) as Hinv.
  { rewrite Hv. by destruct (sorted_by_row _). }
  repeat split.
  - done.
  - by rewrite Hinv, length_zip_with, length_map.
  - rewrite Hv. by destruct (sorted_by_row _).
  - intros ws. rewrite Hv. destruct (sorted_by_row _) as [s|] eqn:E; [|discriminate].
    simpl. intros [= <-]. by apply sorted_by_row_perm.
  - intros Hint. destruct (sorted_by_row_spec _ Hint) as (s & Hs & _).
    exists s. by rewrite Hv, Hs.
  - intros Hlen. unfold validate. by rewrite select_columns_mismatch.
Qed.

Lemma validate_ordered_subset_truncates_witness :
  invoked (validate (mkSchema [col_a; col_b; col_c] true) frame_pq (Some ["c"])) =
    zip (map snd frame_pq) (columns (mkSchema [col_a; col_b; col_c] true)) /\
  length (invoked (validate (mkSchema [col_a; col_b; col_c] true) frame_pq (Some ["c"]))) = 2%nat.
Proof.
  assert (forall n, n ∈ ["c"] -> n ∈ get_column_names (mkSchema [col_a; col_b; col_c] true)) as Hsub.
  { intros n Hn. apply list_elem_of_singleton in Hn as ->. simpl.
    do 2 (apply elem_of_cons; right). apply elem_of_cons. by left. }
  pose proof (validate_ordered_subset_truncates
                (mkSchema [col_a; col_b; col_c] true) frame_pq ["c"] eq_refl Hsub)
    as (H1 & H2 & _).
  split; [exact H1 | exact H2].
Defined.

(** ** Validating a subset of the schema *)

(** C5, as stated, fails in both modes. In ordered mode the pairing takes
    all the schema's columns, so the validator of b is called although the
    subset is a, c. In unordered mode a selected column that the table
    lacks ends the call with one warning before any validator is called. *)
Lemma subset_is_not_always_what_is_validated :
  map (fun p => name (snd p))
      (invoked (validate (mkSchema [col_a; col_b; col_c] true) frame_abc (Some ["a"; "c"])))
    = ["a"; "b"; "c"] /\
  validate (mkSchema [col_a; col_b; col_c] false) frame_ab (Some ["a"; "c"])
    = mkRun (Ok [missing_warning "c"]) [].
Proof. split; reflexivity. Qed.

Lemma snd_by_name df l : map snd (map (by_name df) l) = l.
Proof. induction l as [|c l IH]; simpl; [done | by rewrite IH]. Qed.

(** C5, amended: in unordered mode, for a subset of the schema's names all
    of whose selected columns are in the table, the validators called are
    exactly those of the schema columns whose name is in the subset, each
    on the table column of its name, in schema declaration order; the number
    of columns of the table is not compared with the schema's. *)
Theorem validate_subset_unordered (self : Schema) (df : DataFrame) (names : list string) :
  ordered self = false ->
  (forall n, n ∈ names -> n ∈ get_column_names self) ->
  (forall c, c ∈ columns self -> name c ∈ names -> name c ∈ df_columns df) ->
  let selected := filter (fun c => name c ∈ names) (columns self) in
  invoked (validate self df (Some names)) = map (by_name df) selected /\
  map snd (invoked (validate self df (Some names))) = selected /\
  (forall c, c ∈ map snd (invoked (validate self df (Some names))) <->
             c ∈ columns self /\ name c ∈ names) /\
  sublist selected (columns self) /\
  (forall series c, (series, c) ∈ invoked (validate self df (Some names)) ->
                    df_getitem (name c) df = Some series) /\
  outcome (validate self df (Some names)) =
    match sorted_by_row (emitted (map (by_name df) selected)) with
    | Some s => Ok s
    | None => Raise TypeError
    end.
Proof.
  intros Ho Hsub Hpresent selected.
  assert (Forall (fun c => name c ∈ df_columns df) selected) as Hall.
  { apply Forall_forall. intros c Hc. apply list_elem_of_filter in Hc as [Hn Hc]. auto. }
  assert (paired self df (Some names) (map (by_name df) selected)) as Hp.
  { exists selected. split.
    - by apply (select_columns_accepted self df (Some names)).
    - unfold pair_columns. rewrite Ho. by rewrite pair_by_name_present. }
  pose proof (validate_paired _ _ _ _ Hp) as Hv.
  assert (invoked (validate self df (Some names)) = map (by_name df) selected) as Hinv.
  { rewrite Hv. by destruct (sorted_by_row _). }
  split_and!.
  - done.
  - by rewrite Hinv, snd_by_name.
  - intros c. rewrite Hinv, snd_by_name. unfold selected.
    rewrite list_elem_of_filter. tauto.
  - apply sublist_filter.
  - intros series c. rewrite Hinv. intros Hin.
    apply list_elem_of_In, in_map_iff in Hin as (c' & Heq & Hc').
    unfold by_name in Heq. injection Heq as <- ->.
    apply list_elem_of_In in Hc'. rewrite Forall_forall in Hall.
    destruct (df_getitem_is_Some _ _ (Hall _ Hc')) as [s ->]. done.
  - rewrite Hv. by destruct (sorted_by_row _).
Qed.

Lemma validate_subset_unordered_witness :
  map snd (invoked (validate (mkSchema [int_column "a"; int_column "b"; int_column "c"] false)
                             [("c", [PyInt 1]); ("a", [PyStr "x"])] (Some ["c"; "a"])))
    = filter (fun c => name c ∈ ["c"; "a"])
             (columns (mkSchema [int_column "a"; int_column "b"; int_column "c"] false)).
Proof.
  assert (forall n, n ∈ ["c"; "a"] ->
            n ∈ get_column_names (mkSchema [int_column "a"; int_column "b"; int_column "c"] false))
    as Hsub.
  { intros n Hn. simpl.
    apply elem_of_cons in Hn as [-> | Hn].
    - do 2 (apply elem_of_cons; right). apply elem_of_cons. by left.
    - apply list_elem_of_singleton in Hn as ->. apply elem_of_cons. by left. }
  assert (forall c, c ∈ columns (mkSchema [int_column "a"; int_column "b"; int_column "c"] false) ->
            name c ∈ ["c"; "a"] ->
            name c ∈ df_columns [("c", [PyInt 1]); ("a", [PyStr "x"])]) as Hpresent.
  { intros c _ Hn. exact Hn. }
  exact (proj1 (proj2 (validate_subset_unordered
                         (mkSchema [int_column "a"; int_column "b"; int_column "c"] false)
                         [("c", [PyInt 1]); ("a", [PyStr "x"])] ["c"; "a"]
                         eq_refl Hsub Hpresent))).
Defined.

(** ** Order of the returned warnings *)

(** C3: when cell-level validation runs, the list [validate] returns holds
    the warnings emitted by the paired validators, all of them and nothing
    else, in ascending order of row; warnings of equal row keep their
    emission order (the order of the columns, then the order in which each
    validator emitted them), so a warning with row [-1] comes before every
    warning with a row index of 0 or more. The list is returned whenever
    the emitted warnings carry integer rows. *)
Theorem validate_sorted_stable (self : Schema) (df : DataFrame)
    (subset : option (list string)) (pairs : list (Series * Column)) :
  paired self df subset pairs ->
  invoked (validate self df subset) = pairs /\
  (Forall (fun w => is_Some (row w)) (emitted pairs) ->
   exists ws, outcome (validate self df subset) = Ok ws) /\
  (forall ws, outcome (validate self df subset) = Ok ws ->
     Permutation (emitted pairs) ws /\
     StronglySorted row_leq ws /\
     (forall r, with_row r ws = with_row r (emitted pairs)) /\
     (forall i j w1 w2 r,
        ws !! i = Some w1 -> ws !! j = Some w2 ->
        row w1 = Some (-1)%Z -> row w2 = Some r -> (0 <= r)%Z ->
        (i < j)%nat)).
Proof.
  intros Hp. rewrite (validate_paired _ _ _ _ Hp). split_and!.
  - by destruct (sorted_by_row _).
  - intros Hint. destruct (sorted_by_row_total _ Hint) as [ws ->]. by exists ws.
  - intros ws. destruct (sorted_by_row (emitted pairs)) as [s|] eqn:Hs; [|discriminate].
    simpl. intros [= <-].
    destruct (sorted_by_row_sound _ _ Hs) as (Hperm & Hsort & Hstab).
    split_and!; try done.
    intros i j w1 w2 r Hi Hj H1 H2 Hr.
    eapply (sorted_smaller_row_first s i j w1 w2 (-1) r); try done. lia.
Qed.

Lemma validate_sorted_stable_witness :
  invoked (validate (mkSchema [col_a; col_b] false) frame_ab None) =
    [by_name frame_ab col_a; by_name frame_ab col_b] /\
  forall ws,
    outcome (validate (mkSchema [col_a; col_b] false) frame_ab None) = Ok ws ->
    StronglySorted row_leq ws /\
    forall r, with_row r ws =
              with_row r (emitted [by_name frame_ab col_a; by_name frame_ab col_b]).
Proof.
  assert (paired (mkSchema [col_a; col_b] false) frame_ab None
                 [by_name frame_ab col_a; by_name frame_ab col_b]) as Hp.
  { exists [col_a; col_b]. split; reflexivity. }
  destruct (validate_sorted_stable (mkSchema [col_a; col_b] false) frame_ab None _ Hp)
    as (H1 & _ & H3).
  split; [exact H1|]. intros ws Hws.
  destruct (H3 ws Hws) as (_ & Hsort & Hstab & _). by split.
Defined.

(** The example of the specification: validators that emit rows 5, 1, 3 and
    1, 2 give rows 1, 1, 2, 3, 5, the two warnings of row 1 in emission
    order. *)
Example validate_sort_example :
  outcome (validate (mkSchema [col_a; col_b] false) frame_ab None) =
    Ok [cell_warning "a" 1; cell_warning "b" 1; cell_warning "b" 2;
        cell_warning "a" 3; cell_warning "a" 5].
Proof. reflexivity. Qed.


(** ** The store model: what validate writes *)

Lemma keeps_ret h0 {A} (a : A) (Q : A -> Prop) : Q a -> keeps h0 (ret a) Q.
Proof. intros HQ st H. split; [done|]. by intros a' [= <-]. Qed.

Lemma keeps_raise h0 {A} (e : PyError) (Q : A -> Prop) : keeps h0 (raise e) Q.
Proof. intros st H. split; [done|]. intros a. discriminate. Qed.

Lemma keeps_lift h0 {A} (r : result A) : keeps h0 (lift r) (fun _ => True).
Proof. intros st H. by split. Qed.

Lemma keeps_bind h0 {A B} (m : M A) (k : A -> M B) (Q : A -> Prop) (R : B -> Prop) :
  keeps h0 m Q -> (forall a, Q a -> keeps h0 (k a) R) -> keeps h0 (bind m k) R.
Proof.
  intros Hm Hk st H. unfold bind.
  destruct (Hm st H) as [H1 HQ]. destruct (m st) as [[a|e] st1]; simpl in *.
  - apply (Hk a); auto.
  - split; [done|]. intros b. discriminate.
Qed.

Lemma keeps_weaken h0 {A} (m : M A) (Q R : A -> Prop) :
  keeps h0 m Q -> (forall a, Q a -> R a) -> keeps h0 m R.
Proof. intros Hm HQR st H. destruct (Hm st H) as [H1 HQ]. split; auto. Qed.

(** A new object is none of the objects of [h0]. *)
Lemma keeps_alloc h0 (c : Cell) : keeps h0 (alloc c) (fun l => h0 !! l = None).
Proof.
  intros st H. unfold alloc. simpl.
  assert (h0 !! fresh (dom (heap st)) = None) as Hfresh.
  { destruct (h0 !! fresh (dom (heap st))) as [c'|] eqn:E; [|done].
    exfalso. apply (is_fresh (dom (heap st))). apply elem_of_dom.
    exists c'. by eapply lookup_weaken. }
  split.
  - by apply insert_subseteq_r.
  - by intros a [= <-].
Qed.

(** Reads change nothing. *)
Lemma keeps_load_list h0 l : keeps h0 (load_list l) (fun _ => True).
Proof. intros st H. unfold load_list. by destruct (heap st !! l) as [[]|]. Qed.

Lemma keeps_attr_columns h0 l : keeps h0 (attr_columns l) (fun _ => True).
Proof. intros st H. unfold attr_columns. by destruct (heap st !! l) as [[]|]. Qed.

Lemma keeps_attr_ordered h0 l : keeps h0 (attr_ordered l) (fun _ => True).
Proof. intros st H. unfold attr_ordered. by destruct (heap st !! l) as [[]|]. Qed.

Lemma keeps_load_frame h0 l : keeps h0 (load_frame l) (fun _ => True).
Proof. intros st H. unfold load_frame. by destruct (heap st !! l) as [[]|]. Qed.

Lemma keeps_call_validate h0 c series : keeps h0 (call_validate c series) (fun _ => True).
Proof. intros st H. by split. Qed.

(** Updates in place of an object that is not in [h0] leave [h0] alone. *)
Lemma keeps_list_append h0 l x :
  h0 !! l = None -> keeps h0 (list_append l x) (fun _ => True).
Proof.
  intros Hl st H. unfold list_append.
  destruct (heap st !! l) as [[]|]; simpl; split; auto.
  by apply insert_subseteq_r.
Qed.

Lemma keeps_list_extend h0 l xs :
  h0 !! l = None -> keeps h0 (list_extend l xs) (fun _ => True).
Proof.
  intros Hl st H. unfold list_extend.
  destruct (heap st !! l) as [[]|]; simpl; split; auto.
  by apply insert_subseteq_r.
Qed.

Lemma keeps_get_column_names h0 self :
  keeps h0 (get_column_names_heap self) (fun _ => True).
Proof.
  unfold get_column_names_heap.
  eapply keeps_bind; [apply keeps_attr_columns|]. intros cl _.
  eapply keeps_bind; [apply keeps_load_list|]. intros items _.
  eapply keeps_bind; [apply keeps_lift|]. intros cs _.
  by apply keeps_ret.
Qed.

Lemma keeps_pair_by_name h0 frame items errors column_pairs :
  h0 !! errors = None -> h0 !! column_pairs = None ->
  keeps h0 (pair_by_name_heap frame items errors column_pairs) (fun _ => True).
Proof.
  intros He Hp. induction items as [|item rest IH]; simpl.
  - by apply keeps_ret.
  - eapply keeps_bind; [apply keeps_lift|]. intros c _.
    destruct (negb (df_contains (name c) frame)).
    + eapply keeps_bind; [by apply keeps_list_append|]. intros _ _.
      by apply keeps_ret.
    + destruct (df_getitem (name c) frame).
      * eapply keeps_bind; [by apply keeps_list_append|]. intros _ _. exact IH.
      * apply keeps_raise.
Qed.

Lemma keeps_run_validations h0 pairs errors :
  h0 !! errors = None ->
  keeps h0 (run_validations_heap pairs errors) (fun _ => True).
Proof.
  intros He. induction pairs as [|item rest IH]; simpl.
  - by apply keeps_ret.
  - eapply keeps_bind; [apply keeps_lift|]. intros p _.
    eapply keeps_bind; [apply keeps_lift|]. intros c _.
    eapply keeps_bind; [apply keeps_lift|]. intros series _.
    eapply keeps_bind; [apply keeps_call_validate|]. intros ws _.
    eapply keeps_bind; [by apply keeps_list_extend|]. intros _ _. exact IH.
Qed.

Lemma keeps_return_sorted h0 errors :
  keeps h0 (return_sorted errors) (fun _ => True).
Proof.
  unfold return_sorted.
  eapply keeps_bind; [apply keeps_load_list|]. intros items _.
  eapply keeps_bind; [apply keeps_lift|]. intros ws _.
  destruct (sorted_by_row ws).
  - eapply keeps_weaken; [apply keeps_alloc | done].
  - apply keeps_raise.
Qed.

Lemma keeps_pair_and_validate h0 self frame columns_to_pair errors :
  h0 !! errors = None ->
  keeps h0 (pair_and_validate self frame columns_to_pair errors) (fun _ => True).
Proof.
  intros He. unfold pair_and_validate.
  eapply keeps_bind; [apply keeps_attr_ordered|]. intros [] _.
  - eapply keeps_bind; [apply keeps_alloc|]. intros series _.
    eapply keeps_bind; [apply keeps_attr_columns|]. intros cl _.
    eapply keeps_bind; [apply keeps_load_list|]. intros xs _.
    eapply keeps_bind; [apply keeps_load_list|]. intros ys _.
    eapply keeps_bind; [by apply keeps_run_validations|]. intros _ _.
    apply keeps_return_sorted.
  - eapply keeps_bind; [apply keeps_alloc|]. intros column_pairs Hp.
    eapply keeps_bind; [apply keeps_load_list|]. intros items _.
    eapply keeps_bind; [by apply keeps_pair_by_name|]. intros [l|] _.
    + by apply keeps_ret.
    + eapply keeps_bind; [apply keeps_load_list|]. intros pairs _.
      eapply keeps_bind; [by apply keeps_run_validations|]. intros _ _.
      apply keeps_return_sorted.
Qed.

(** [validate] changes no object that existed before the call: it only
    allocates, and updates in place what it allocated. *)
Lemma keeps_validate h0 self df subset :
  keeps h0 (validate_heap self df subset) (fun _ => True).
Proof.
  unfold validate_heap.
  eapply keeps_bind; [apply keeps_alloc|]. intros errors He.
  eapply keeps_bind; [apply keeps_load_frame|]. intros frame _.
  destruct subset as [names|].
  - eapply keeps_bind; [apply keeps_get_column_names|]. intros schema_names _.
    destruct (issubset names schema_names).
    + eapply keeps_bind; [apply keeps_attr_columns|]. intros cl _.
      eapply keeps_bind; [apply keeps_load_list|]. intros items _.
      eapply keeps_bind; [apply keeps_lift|]. intros cs _.
      eapply keeps_bind; [apply keeps_alloc|]. intros columns_to_pair _.
      by apply keeps_pair_and_validate.
    + eapply keeps_bind; [apply keeps_attr_columns|]. intros cl _.
      eapply keeps_bind; [apply keeps_load_list|]. intros items _.
      eapply keeps_bind; [apply keeps_lift|]. intros cs _.
      apply keeps_raise.
  - eapply keeps_bind; [apply keeps_attr_columns|]. intros cl _.
    eapply keeps_bind; [apply keeps_load_list|]. intros items _.
    destruct (negb _).
    + eapply keeps_bind; [by apply keeps_list_append|]. intros _ _.
      by apply keeps_ret.
    + by apply keeps_pair_and_validate.
Qed.

Lemma validate_many_frame self calls st :
  heap st ⊆ heap (validate_many self calls st).
Proof.
  revert st. induction calls as [|[df subset] calls IH]; intros st; simpl.
  - done.
  - etrans; [|apply IH].
    by apply (keeps_validate (heap st) self df subset st).
Qed.

Lemma map_result_as_column cs : map_result as_column (map ObjColumn cs) = Ok cs.
Proof. induction cs as [|c l IH]; simpl; [done | by rewrite IH]. Qed.

Lemma map_result_as_warning ws : map_result as_warning (map ObjWarning ws) = Ok ws.
Proof. induction ws as [|w l IH]; simpl; [done | by rewrite IH]. Qed.

Lemma get_column_names_heap_spec st self s :
  holds_schema st self s ->
  get_column_names_heap self st = (Ok (get_column_names s), st).
Proof.
  intros (cl & Hself & Hcl).
  unfold get_column_names_heap, bind, attr_columns, load_list, lift, ret.
  by rewrite Hself, Hcl, map_result_as_column.
Qed.

(** C9: calls of [validate], any number of them, on any data frames and
    with any subsets, whether they return or raise, leave every object
    that existed before them as it was: the schema's [columns] list and
    [ordered] flag and the data frames; so [get_column_names] gives the
    schema's names, in schema order, before and after. *)
Theorem validate_leaves_schema_and_table_unchanged (st : State) (self : loc)
    (s : Schema) (calls : list (loc * option (list string))) :
  holds_schema st self s ->
  (forall l c, heap st !! l = Some c ->
               heap (validate_many self calls st) !! l = Some c) /\
  holds_schema (validate_many self calls st) self s /\
  (forall df d, holds_frame st df d -> holds_frame (validate_many self calls st) df d) /\
  fst (get_column_names_heap self st) = Ok (get_column_names s) /\
  fst (get_column_names_heap self (validate_many self calls st)) =
    Ok (get_column_names s).
Proof.
  intros Hs.
  pose proof (validate_many_frame self calls st) as Hframe.
  assert (forall l c, heap st !! l = Some c ->
                      heap (validate_many self calls st) !! l = Some c) as Hkeep.
  { intros l c Hl. by eapply lookup_weaken. }
  assert (holds_schema (validate_many self calls st) self s) as Hs'.
  { destruct Hs as (cl & Hself & Hcl). exists cl. split; by apply Hkeep. }
  split_and!; try done.
  - intros df d Hd. by apply Hkeep.
  - by rewrite (get_column_names_heap_spec _ _ _ Hs).
  - by rewrite (get_column_names_heap_spec _ _ _ Hs').
Qed.

Lemma validate_leaves_schema_and_table_unchanged_witness :
  fst (get_column_names_heap 1
         (validate_many 1 [(3%positive, None); (3%positive, Some ["z"]);
                           (3%positive, Some ["b"])] sample_store))
    = Ok ["a"; "b"].
Proof.
  apply (validate_leaves_schema_and_table_unchanged sample_store 1
           (mkSchema [col_a; col_b] false)).
  exists 2%positive. split; reflexivity.
Defined.

(** ** The store model computes what the functional model computes *)

Lemma fresh_ne (h : gmap loc Cell) l c : h !! l = Some c -> fresh (dom h) <> l.
Proof.
  intros H E. apply (is_fresh (dom h)). rewrite E. apply elem_of_dom. by exists c.
Qed.

Lemma lookup_alloc (h : gmap loc Cell) c' l c :
  h !! l = Some c -> <[fresh (dom h) := c']> h !! l = Some c.
Proof. intros H. rewrite lookup_insert_ne; [done | by eapply fresh_ne]. Qed.

Lemma run_validations_heap_spec pairs e st ws :
  heap st !! e = Some (CList (map ObjWarning ws)) ->
  run_validations_heap (map tuple_of pairs) e st =
    (Ok tt, mkState (<[e := CList (map ObjWarning (ws ++ emitted pairs))]> (heap st))
                    (log st ++ pairs)).
Proof.
  revert st ws. induction pairs as [|[series c] pairs IH]; intros st ws He.
  - simpl. unfold ret, emitted. simpl. rewrite !app_nil_r, insert_id by done.
    by destruct st.
  - simpl. unfold bind at 1 2 3 4 5. unfold lift, call_validate, list_extend. simpl.
    rewrite He. rewrite IH with (ws := ws ++ column_validate c series).
    + simpl. rewrite insert_insert_eq. unfold emitted. simpl.
      by rewrite <- !app_assoc.
    + simpl. by rewrite lookup_insert_eq, map_app.
Qed.

Lemma pair_by_name_heap_spec d cols e cp st acc r :
  e <> cp ->
  heap st !! e = Some (CList []) ->
  heap st !! cp = Some (CList (map tuple_of acc)) ->
  r = pair_by_name_heap d (map ObjColumn cols) e cp st ->
  match pair_by_name d cols [] acc with
  | Continue pairs =>
      r = (Ok None, mkState (<[cp := CList (map tuple_of pairs)]> (heap st)) (log st))
  | Return errs =>
      fst r = Ok (Some e) /\
      heap (snd r) !! e = Some (CList (map ObjWarning errs)) /\
      log (snd r) = log st
  | Raised err => fst r = Raise err /\ log (snd r) = log st
  end.
Proof.
  intros Hne. revert st acc. induction cols as [|c cols IH]; intros st acc He Hcp Hr.
  - simpl in *. unfold ret in Hr. rewrite insert_id by done. by destruct st.
  - simpl in Hr. unfold bind at 1 in Hr. unfold lift in Hr. simpl in Hr. simpl.
    destruct (df_contains (name c) d); simpl in *.
    + destruct (df_getitem (name c) d) as [series|]; simpl in *.
      * unfold bind at 1 in Hr. unfold list_append in Hr. rewrite Hcp in Hr.
        cbv beta iota in Hr.
        set (st1 := mkState _ _) in Hr.
        assert (heap st1 !! e = Some (CList [])) as He1.
        { unfold st1. simpl. by rewrite lookup_insert_ne. }
        assert (heap st1 !! cp = Some (CList (map tuple_of (acc ++ [(series, c)])))) as Hcp1.
        { unfold st1. simpl. by rewrite lookup_insert_eq, map_app. }
        specialize (IH st1 _ He1 Hcp1 Hr).
        destruct (pair_by_name d cols [] (acc ++ [(series, c)])) as [pairs|errs|err].
        -- rewrite IH. simpl. by rewrite insert_insert_eq.
        -- done.
        -- done.
      * unfold raise in Hr. by subst r.
    + unfold bind, list_append, ret in Hr. rewrite He in Hr. subst r. simpl.
      by rewrite lookup_insert_eq.
Qed.

Lemma return_sorted_spec e st ws :
  heap st !! e = Some (CList (map ObjWarning ws)) ->
  match sorted_by_row ws with
  | Some s =>
      exists l,
        return_sorted e st =
          (Ok l, mkState (<[l := CList (map ObjWarning s)]> (heap st)) (log st))
  | None => return_sorted e st = (Raise TypeError, st)
  end.
Proof.
  intros He. unfold return_sorted, bind, load_list, lift. rewrite He.
  rewrite map_result_as_warning.
  destruct (sorted_by_row ws); [|done]. by eexists.
Qed.

Lemma zip_tuple_of (ss : list Series) (cs : list Column) :
  py_zip (map ObjSeries ss) (map ObjColumn cs) = map tuple_of (zip ss cs).
Proof.
  unfold py_zip. revert cs. induction ss as [|x ss IH]; intros [|c cs]; simpl; try done.
  by rewrite IH.
Qed.

(** The loop and the sort, from a store in which [errors] is still empty. *)
Lemma validate_and_sort_spec pairs e st :
  heap st !! e = Some (CList []) ->
  let r := bind (run_validations_heap (map tuple_of pairs) e)
                (fun _ => return_sorted e) st in
  log (snd r) = log st ++ pairs /\
  match sorted_by_row (emitted pairs) with
  | Some ws => exists l, fst r = Ok l /\ heap (snd r) !! l = Some (CList (map ObjWarning ws))
  | None => fst r = Raise TypeError
  end.
Proof.
  intros He. unfold bind.
  rewrite (run_validations_heap_spec pairs e st []) by done. simpl.
  set (st1 := mkState _ _).
  assert (heap st1 !! e = Some (CList (map ObjWarning (emitted pairs)))) as He1.
  { unfold st1. simpl. by rewrite lookup_insert_eq. }
  pose proof (return_sorted_spec e st1 _ He1) as Hs.
  destruct (sorted_by_row (emitted pairs)) as [ws|].
  - destruct Hs as [l ->]. simpl. split; [done|]. exists l. by rewrite lookup_insert_eq.
  - by rewrite Hs.
Qed.

Lemma pair_and_validate_spec st self cl s d ctp ctp_list e :
  heap st !! self = Some (CSchema cl (ordered s)) ->
  heap st !! cl = Some (CList (map ObjColumn (columns s))) ->
  heap st !! ctp = Some (CList (map ObjColumn ctp_list)) ->
  heap st !! e = Some (CList []) ->
  agrees (pair_and_validate self d ctp e st) st
    (match pair_columns s d ctp_list [] with
     | Return errs => mkRun (Ok errs) []
     | Raised err => mkRun (Raise err) []
     | Continue pairs =>
         match sorted_by_row (emitted pairs) with
         | Some ws => mkRun (Ok ws) pairs
         | None => mkRun (Raise TypeError) pairs
         end
     end).
Proof.
  intros Hself Hcl Hctp He.
  unfold pair_and_validate, pair_columns.
  unfold bind at 1. unfold attr_ordered. rewrite Hself. cbv beta iota.
  destruct (ordered s).
  - unfold bind at 1. unfold alloc. cbv beta iota zeta.
    set (st1 := mkState _ _).
    unfold bind at 1. unfold attr_columns.
    assert (heap st1 !! self = Some (CSchema cl true)) as -> by by apply lookup_alloc.
    cbv beta iota.
    unfold bind at 1. unfold load_list at 1.
    assert (heap st1 !! fresh (dom (heap st)) =
            Some (CList (map (fun x => ObjSeries (snd x)) (df_iteritems d)))) as ->
      by apply lookup_insert_eq.
    cbv beta iota.
    unfold bind at 1. unfold load_list at 1.
    assert (heap st1 !! cl = Some (CList (map ObjColumn (columns s)))) as ->
      by by apply lookup_alloc.
    cbv beta iota.
    unfold df_iteritems. rewrite <- (map_map snd ObjSeries), zip_tuple_of.
    assert (heap st1 !! e = Some (CList [])) as He1 by by apply lookup_alloc.
    destruct (validate_and_sort_spec (zip (map snd d) (columns s)) e st1 He1) as [Hlog Hout].
    unfold agrees. destruct (sorted_by_row _); simpl; split; done.
  - unfold bind at 1. unfold alloc. cbv beta iota zeta.
    set (cp := fresh (dom (heap st))). set (st1 := mkState _ _).
    unfold bind at 1. unfold load_list at 1.
    assert (heap st1 !! ctp = Some (CList (map ObjColumn ctp_list))) as ->
      by by apply lookup_alloc.
    cbv beta iota.
    assert (e <> cp) as Hne by (intros ->; by eapply fresh_ne).
    assert (heap st1 !! e = Some (CList [])) as He1 by by apply lookup_alloc.
    assert (heap st1 !! cp = Some (CList (map tuple_of []))) as Hcp1
      by apply lookup_insert_eq.
    pose proof (pair_by_name_heap_spec d ctp_list e cp st1 [] _ Hne He1 Hcp1 eq_refl) as Hp.
    unfold bind at 1.
    destruct (pair_by_name d ctp_list [] []) as [pairs|errs|err].
    + rewrite Hp. cbv beta iota.
      set (st2 := mkState _ _).
      unfold bind at 1. unfold load_list at 1.
      assert (heap st2 !! cp = Some (CList (map tuple_of pairs))) as ->
        by apply lookup_insert_eq.
      cbv beta iota.
      assert (heap st2 !! e = Some (CList [])) as He2.
      { unfold st2. simpl. by rewrite lookup_insert_ne. }
      destruct (validate_and_sort_spec pairs e st2 He2) as [Hlog Hout].
      unfold agrees. destruct (sorted_by_row _); simpl; split; done.
    + destruct Hp as (H1 & H2 & H3).
      destruct (pair_by_name_heap _ _ _ _ _) as [[[l|]|err] st2]; simpl in *; try done.
      injection H1 as ->. unfold agrees, ret. simpl. rewrite app_nil_r. split; [done|].
      by exists e.
    + destruct Hp as (H1 & H3).
      destruct (pair_by_name_heap _ _ _ _ _) as [[[l|]|err'] st2]; simpl in *; try done.
      injection H1 as ->. unfold agrees. simpl. by rewrite app_nil_r.
Qed.

(** The run over the store agrees with the functional model: the same
    validator calls in the same order, and the same warnings in the list
    returned, or the same exception. *)
Lemma validate_heap_refines st self dfl s d subset :
  holds_schema st self s ->
  holds_frame st dfl d ->
  agrees (validate_heap self dfl subset st) st (validate s d subset).
Proof.
  intros (cl & Hself & Hcl) Hd. unfold holds_frame in Hd.
  unfold validate_heap, validate, select_columns.
  unfold bind at 1. unfold alloc. cbv beta iota zeta.
  set (e := fresh (dom (heap st))). set (st1 := mkState _ _).
  assert (heap st1 !! self = Some (CSchema cl (ordered s))) as Hself1 by by apply lookup_alloc.
  assert (heap st1 !! cl = Some (CList (map ObjColumn (columns s)))) as Hcl1
    by by apply lookup_alloc.
  assert (heap st1 !! e = Some (CList [])) as He1 by apply lookup_insert_eq.
  unfold bind at 1. unfold load_frame.
  assert (heap st1 !! dfl = Some (CFrame d)) as -> by by apply lookup_alloc.
  cbv beta iota.
  destruct subset as [names|].
  - unfold bind at 1. rewrite (get_column_names_heap_spec st1 self s) by by exists cl.
    cbv beta iota. destruct (issubset names (get_column_names s)).
    + unfold bind at 1. unfold attr_columns. rewrite Hself1. cbv beta iota.
      unfold bind at 1. unfold load_list. rewrite Hcl1. cbv beta iota.
      unfold bind at 1. unfold lift. rewrite map_result_as_column. cbv beta iota.
      unfold bind at 1. unfold alloc. cbv beta iota zeta.
      set (ctp := fresh (dom (heap st1))). set (st2 := mkState _ _).
      pose proof (pair_and_validate_spec st2 self cl s d ctp
                    (filter (fun c => name c ∈ names) (columns s)) e) as Hpv.
      destruct Hpv as [Hlog Hout]; try by apply lookup_alloc.
      { apply lookup_insert_eq. }
      split; [|clear Hlog]; revert Hlog || revert Hout;
        destruct (pair_columns _ _ _ _) as [pairs|errs|err]; simpl; try done;
        destruct (run_validations _ _ _) as [errs calls] eqn:Er;
        rewrite run_validations_spec in Er; injection Er as <- <-; simpl;
        by destruct (sorted_by_row _).
    + unfold bind at 1. unfold attr_columns. rewrite Hself1. cbv beta iota.
      unfold bind at 1. unfold load_list. rewrite Hcl1. cbv beta iota.
      unfold bind at 1. unfold lift. rewrite map_result_as_column. cbv beta iota.
      unfold raise, agrees. simpl. by rewrite app_nil_r.
  - unfold bind at 1. unfold attr_columns. rewrite Hself1. cbv beta iota.
    unfold bind at 1. unfold load_list. rewrite Hcl1. cbv beta iota.
    rewrite length_map.
    destruct (negb (length (df_columns d) =? length (columns s))%nat).
    + unfold bind, list_append, ret. rewrite He1. unfold agrees. simpl.
      rewrite app_nil_r. split; [done|]. exists e. by rewrite lookup_insert_eq.
    + pose proof (pair_and_validate_spec st1 self cl s d cl (columns s) e
                    Hself1 Hcl1 Hcl1 He1) as [Hlog Hout].
      split; [|clear Hlog]; revert Hlog || revert Hout;
        destruct (pair_columns _ _ _ _) as [pairs|errs|err]; simpl; try done;
        destruct (run_validations _ _ _) as [errs calls] eqn:Er;
        rewrite run_validations_spec in Er; injection Er as <- <-; simpl;
        by destruct (sorted_by_row _).
Qed.

(** The three ways a call can end, run over the sample store: a list of
    sorted warnings, the count warning, and the argument error. *)
Example validate_heap_examples :
  (let r := validate_heap 1 3 None sample_store in
   match fst r with Ok l => warnings_at (snd r) l | Raise _ => None end)
    = Some [cell_warning "a" 1; cell_warning "b" 1; cell_warning "b" 2;
            cell_warning "a" 3; cell_warning "a" 5] /\
  fst (validate_heap 1 3 (Some ["a"; "z"]) sample_store)
    = Raise (PanSchArgumentError ["a"; "z"]).
Proof. split; vm_compute; reflexivity. Qed.

(* ===================================================================== *)
(** * Part III: further properties of the same code                       *)
(* ===================================================================== *)

(** ** What validate can raise *)

(** X1: [validate] raises nothing but the argument error, for a subset
    with a name outside the schema, and the TypeError of the final sort,
    once the validators have run; the lookup [df[column.name]] never
    fails, being guarded by [column.name not in df]. *)
Theorem validate_raises_only (self : Schema) (df : DataFrame)
    (subset : option (list string)) (e : PyError) :
  outcome (validate self df subset) = Raise e ->
  (exists names,
     subset = Some names /\
     ~ (forall n, n ∈ names -> n ∈ get_column_names self) /\
     e = PanSchArgumentError (py_set names) /\
     invoked (validate self df subset) = []) \/
  (exists pairs,
     paired self df subset pairs /\
     sorted_by_row (emitted pairs) = None /\
     e = TypeError /\
     invoked (validate self df subset) = pairs).
Proof.
  intros H.
  destruct (select_columns self df subset []) as [ctp|errs|e'] eqn:E1.
  - destruct (pair_columns self df ctp []) as [pairs|errs|e'] eqn:E2.
    + right. exists pairs.
      assert (paired self df subset pairs) as Hp by (exists ctp; by split).
      rewrite (validate_paired _ _ _ _ Hp) in *.
      destruct (sorted_by_row (emitted pairs)); simpl in *; [discriminate|].
      injection H as <-. by split_and!.
    + unfold validate in H. rewrite E1, E2 in H. discriminate.
    + exfalso. unfold pair_columns in E2. destruct (ordered self); [discriminate|].
      destruct (first_missing df ctp) as [Hall | (pre & c & post & -> & Hpre & Hc)].
      * by rewrite pair_by_name_present in E2.
      * by rewrite pair_by_name_missing in E2.
  - unfold validate in H. rewrite E1 in H. discriminate.
  - left. destruct subset as [names|]; simpl in E1.
    + destruct (issubset names (get_column_names self)) eqn:Es; [discriminate|].
      assert (~ (forall n, n ∈ names -> n ∈ get_column_names self)) as Hno.
      { intros Hall. apply issubset_true in Hall. congruence. }
      exists names. unfold validate in *.
      rewrite (select_columns_rejected _ _ _ _ Hno) in *. simpl in *.
      injection H as <-. by split_and!.
    + destruct (negb _); discriminate.
Qed.

Lemma validate_raises_only_witness :
  (exists names,
     Some ["z"] = Some names /\
     ~ (forall n, n ∈ names -> n ∈ get_column_names (mkSchema [col_a; col_b] true)) /\
     PanSchArgumentError ["z"] = PanSchArgumentError (py_set names) /\
     invoked (validate (mkSchema [col_a; col_b] true) frame_a (Some ["z"])) = []) \/
  (exists pairs,
     paired (mkSchema [col_a; col_b] true) frame_a (Some ["z"]) pairs /\
     sorted_by_row (emitted pairs) = None /\
     PanSchArgumentError ["z"] = TypeError /\
     invoked (validate (mkSchema [col_a; col_b] true) frame_a (Some ["z"])) = pairs).
Proof.
  apply (validate_raises_only (mkSchema [col_a; col_b] true) frame_a (Some ["z"])).
  reflexivity.
Defined.



(** ** Edge cases of the subset *)

Lemma filter_name_nil (cs : list Column) :
  filter (fun c => name c ∈ @nil string) cs = [].
Proof.
  induction cs as [|c cs IH]; [done|]. rewrite filter_cons.
  case_decide as H; [by apply elem_of_nil in H | done].
Qed.

(** X3: in unordered mode the empty subset validates nothing: whatever
    the table, also one whose column count differs from the schema's,
    [validate] returns the empty list and calls no validator. *)
Theorem validate_empty_subset (self : Schema) (df : DataFrame) :
  ordered self = false ->
  validate self df (Some []) = mkRun (Ok []) [].
Proof.
  intros Ho.
  assert (paired self df (Some []) []) as Hp.
  { exists []. split.
    - rewrite (select_columns_accepted self df (Some [])).
      + simpl. by rewrite filter_name_nil.
      + intros n Hn. by apply elem_of_nil in Hn.
    - unfold pair_columns. by rewrite Ho. }
  by rewrite (validate_paired _ _ _ _ Hp).
Qed.

Lemma validate_empty_subset_witness :
  validate (mkSchema [col_a; col_b] false) frame_abc (Some []) = mkRun (Ok []) [].
Proof. apply (validate_empty_subset (mkSchema [col_a; col_b] false) frame_abc). reflexivity. Defined.

(** X4: a subset counts as a set: two subsets of the schema's names with
    the same elements, in whatever order and with whatever repetitions,
    give the same validator calls and the same result. *)
Theorem validate_subset_as_set (self : Schema) (df : DataFrame)
    (names names' : list string) :
  (forall n, n ∈ names <-> n ∈ names') ->
  (forall n, n ∈ names -> n ∈ get_column_names self) ->
  validate self df (Some names) = validate self df (Some names').
Proof.
  intros Hsame Hsub.
  assert (forall n, n ∈ names' -> n ∈ get_column_names self) as Hsub'.
  { intros n Hn. apply Hsub. by apply Hsame. }
  unfold validate.
  rewrite (select_columns_accepted self df (Some names)) by done.
  rewrite (select_columns_accepted self df (Some names')) by done.
  simpl. rewrite (list_filter_iff (fun c => name c ∈ names) (fun c => name c ∈ names')).
  - done.
  - intros c. apply Hsame.
Qed.

Lemma validate_subset_as_set_witness :
  validate (mkSchema [col_a; col_b; col_c] false) frame_abc (Some ["c"; "a"]) =
  validate (mkSchema [col_a; col_b; col_c] false) frame_abc (Some ["a"; "c"; "a"]).
Proof.
  apply (validate_subset_as_set (mkSchema [col_a; col_b; col_c] false) frame_abc).
  - intros n. rewrite !elem_of_cons, !elem_of_nil. tauto.
  - intros n Hn. change (n ∈ ["a"; "b"; "c"]).
    rewrite !elem_of_cons, elem_of_nil in *. tauto.
Defined.

(** X5: a subset with a name outside the schema raises the argument
    error whatever the table and whatever [ordered]: no validator is
    called, and the set printed in the message holds every name of the
    subset, once each. *)
Theorem validate_rejected_whatever_table (self : Schema) (df : DataFrame)
    (names : list string) :
  ~ (forall n, n ∈ names -> n ∈ get_column_names self) ->
  exists shown,
    validate self df (Some names) = mkRun (Raise (PanSchArgumentError shown)) [] /\
    NoDup shown /\
    forall n, n ∈ shown <-> n ∈ names.
Proof.
  intros H. exists (py_set names). split_and!.
  - unfold validate. by rewrite select_columns_rejected.
  - apply NoDup_remove_dups.
  - intros n. apply elem_of_remove_dups.
Qed.

Lemma validate_rejected_whatever_table_witness :
  exists shown,
    validate (mkSchema [col_a; col_b] true) [] (Some ["b"; "z"; "b"]) =
      mkRun (Raise (PanSchArgumentError shown)) [] /\
    NoDup shown /\
    forall n, n ∈ shown <-> n ∈ ["b"; "z"; "b"].
Proof.
  apply (validate_rejected_whatever_table (mkSchema [col_a; col_b] true) []).
  intros H.
  assert ("z" ∈ get_column_names (mkSchema [col_a; col_b] true)) as Hz.
  { apply H. rewrite !elem_of_cons. auto. }
  change ("z" ∈ ["a"; "b"]) in Hz. rewrite !elem_of_cons, elem_of_nil in Hz.
  destruct Hz as [Hz | [Hz | Hz]]; [discriminate | discriminate | done].
Defined.

(** ** Pairing by name and the order of the table's columns *)

Lemma df_getitem_None n df : n ∉ df_columns df -> df_getitem n df = None.
Proof.
  induction df as [|[label series] df IH]; simpl; [done|].
  intros H. apply not_elem_of_cons in H as [Hne H].
  destruct (String.eqb_spec label n); [congruence | by apply IH].
Qed.

Lemma df_getitem_elem n df series : df_getitem n df = Some series -> (n, series) ∈ df.
Proof.
  induction df as [|[label s] df IH]; simpl; [done|].
  destruct (String.eqb_spec label n) as [-> | Hne].
  - intros [= ->]. by left.
  - intros H. right. by apply IH.
Qed.

Lemma df_getitem_NoDup n df series :
  NoDup (df_columns df) -> (n, series) ∈ df -> df_getitem n df = Some series.
Proof.
  induction df as [|[label s] df IH]; simpl.
  - intros _ H. by apply elem_of_nil in H.
  - intros Hnd H. apply NoDup_cons in Hnd as [Hlabel Hnd].
    apply elem_of_cons in H as [[= -> ->] | H].
    + by rewrite String.eqb_refl.
    + destruct (String.eqb_spec label n) as [-> | Hne]; [|by apply IH].
      destruct Hlabel. unfold df_columns.
      apply list_elem_of_In, in_map_iff. exists (n, series).
      split; [done | by apply list_elem_of_In].
Qed.

(** With unique labels, a lookup by name does not depend on the order of
    the columns. *)
Lemma df_getitem_perm n df df' :
  NoDup (df_columns df) -> df ≡ₚ df' -> df_getitem n df = df_getitem n df'.
Proof.
  intros Hnd Hperm.
  assert (NoDup (df_columns df')) as Hnd'.
  { unfold df_columns in *. by rewrite <- (Permutation_map fst Hperm). }
  destruct (df_getitem n df) as [series|] eqn:E.
  - symmetry. apply df_getitem_NoDup; [done|].
    rewrite <- Hperm. by apply df_getitem_elem.
  - destruct (df_getitem n df') as [series|] eqn:E'; [|done].
    apply df_getitem_elem in E'. rewrite <- Hperm in E'.
    apply (df_getitem_NoDup _ _ _ Hnd) in E'. congruence.
Qed.

Lemma df_contains_perm n df df' : df ≡ₚ df' -> df_contains n df = df_contains n df'.
Proof.
  intros Hperm. unfold df_contains, df_columns.
  apply bool_decide_ext. by rewrite (Permutation_map fst Hperm).
Qed.

Lemma pair_by_name_ext df df' l errors acc :
  (forall n, df_contains n df = df_contains n df') ->
  (forall n, df_getitem n df = df_getitem n df') ->
  pair_by_name df l errors acc = pair_by_name df' l errors acc.
Proof.
  intros Hc Hg. revert acc. induction l as [|c l IH]; intros acc; simpl; [done|].
  rewrite Hc, Hg. destruct (df_contains _ _); simpl; [|done].
  destruct (df_getitem _ _); [apply IH | done].
Qed.

(** X6: in unordered mode the position of the table's columns plays no
    part: on a table with unique labels, reordering its columns changes
    neither the validator calls nor the result, with or without a subset. *)
Theorem validate_unordered_ignores_positions (self : Schema) (df df' : DataFrame)
    (subset : option (list string)) :
  ordered self = false ->
  NoDup (df_columns df) ->
  df ≡ₚ df' ->
  validate self df subset = validate self df' subset.
Proof.
  intros Ho Hnd Hperm. unfold validate.
  assert (select_columns self df subset [] = select_columns self df' subset []) as ->.
  { unfold select_columns, df_columns.
    by rewrite (Permutation_length (Permutation_map fst Hperm)). }
  destruct (select_columns self df' subset []) as [ctp|errs|e]; try done.
  unfold pair_columns. rewrite Ho.
  rewrite (pair_by_name_ext df df'); [done | |].
  - intros n. by apply df_contains_perm.
  - intros n. by apply df_getitem_perm.
Qed.

Lemma validate_unordered_ignores_positions_witness :
  validate (mkSchema [int_column "a"; int_column "b"] false) frame_ab None =
  validate (mkSchema [int_column "a"; int_column "b"] false)
           [("b", [PyInt 2; PyInt 3]); ("a", [PyInt 1; PyStr "x"])] None.
Proof.
  apply (validate_unordered_ignores_positions
           (mkSchema [int_column "a"; int_column "b"] false) frame_ab).
  - reflexivity.
  - change (NoDup ["a"; "b"]). apply NoDup_cons. split.
    + rewrite elem_of_cons, elem_of_nil. intros [H | []]. discriminate.
    + apply NoDup_cons. split; [apply not_elem_of_nil | apply NoDup_nil_2].
  - apply perm_swap.
Defined.

(** X7: in unordered mode without a subset, for a schema whose column
    names are distinct, the validators get to run exactly when the table's
    labels are the schema's names, in whatever order: a table column the
    schema does not know shows up as a structural warning too. *)
Theorem validate_unordered_runs_iff_same_names (self : Schema) (df : DataFrame) :
  ordered self = false ->
  NoDup (get_column_names self) ->
  ((exists pairs, paired self df None pairs) <->
   get_column_names self ≡ₚ df_columns df).
Proof.
  intros Ho Hnd. split.
  - intros (pairs & ctp & H1 & H2).
    apply select_columns_Continue in H1 as [Hacc ->]. simpl in Hacc, H2.
    unfold pair_columns in H2. rewrite Ho in H2.
    destruct (first_missing df (columns self)) as [Hall | (pre & c & post & Hs & Hpre & Hc)].
    + apply submseteq_length_Permutation.
      * apply NoDup_submseteq; [done|]. intros n Hn.
        apply list_elem_of_In, in_map_iff in Hn as (c & <- & Hc).
        rewrite Forall_forall in Hall. apply Hall. by apply list_elem_of_In.
      * unfold get_column_names. rewrite length_map. lia.
    + rewrite Hs in H2. by rewrite pair_by_name_missing in H2.
  - intros Hperm. exists (map (by_name df) (columns self)), (columns self). split.
    + apply (select_columns_accepted self df None). simpl.
      rewrite <- (Permutation_length Hperm). unfold get_column_names. by rewrite length_map.
    + unfold pair_columns. rewrite Ho. apply pair_by_name_present.
      apply Forall_forall. intros c Hc. rewrite <- Hperm.
      apply list_elem_of_In, in_map_iff. exists c. split; [done | by apply list_elem_of_In].
Qed.

Lemma validate_unordered_runs_iff_same_names_witness :
  (exists pairs, paired (mkSchema [col_a; col_b] false) frame_pq None pairs) <->
  get_column_names (mkSchema [col_a; col_b] false) ≡ₚ df_columns frame_pq.
Proof.
  apply (validate_unordered_runs_iff_same_names (mkSchema [col_a; col_b] false) frame_pq).
  - reflexivity.
  - change (NoDup ["a"; "b"]). apply NoDup_cons. split.
    + rewrite elem_of_cons, elem_of_nil. intros [H | []]. discriminate.
    + apply NoDup_cons. split; [apply not_elem_of_nil | apply NoDup_nil_2].
Defined.

(** ** The warnings validate builds itself *)

(** The ways a call can end, with the warning of a structural stop. *)
Lemma validate_cases_warning self df subset :
  (exists m c, validate self df subset = mkRun (Ok [schema_warning m c]) []) \/
  (exists shown, validate self df subset = mkRun (Raise (PanSchArgumentError shown)) []) \/
  (exists pairs, paired self df subset pairs).
Proof.
  destruct (select_columns self df subset []) as [ctp|errs|e] eqn:E1.
  - destruct (pair_columns self df ctp []) as [pairs|errs|e] eqn:E2.
    + right. right. exists pairs, ctp. by split.
    + left. unfold validate. rewrite E1, E2.
      unfold pair_columns in E2. destruct (ordered self); [discriminate|].
      destruct (first_missing df ctp) as [H | (pre & c & post & -> & Hpre & Hc)].
      * by rewrite pair_by_name_present in E2.
      * rewrite pair_by_name_missing in E2 by done. injection E2 as <-.
        unfold missing_warning. eauto.
    + exfalso. unfold pair_columns in E2. destruct (ordered self); [discriminate|].
      destruct (first_missing df ctp) as [H | (pre & c & post & -> & Hpre & Hc)].
      * by rewrite pair_by_name_present in E2.
      * by rewrite pair_by_name_missing in E2.
  - left. unfold validate. rewrite E1. destruct subset as [names|]; simpl in E1.
    + destruct (issubset _ _); discriminate.
    + destruct (negb _); [|discriminate]. injection E1 as <-.
      unfold count_warning. eauto.
  - right. left. unfold validate. rewrite E1. destruct subset as [names|]; simpl in E1.
    + destruct (issubset _ _); [discriminate|]. injection E1 as <-. eauto.
    + destruct (negb _); discriminate.
Qed.

(** X8: when [validate] returns without having called a validator, every
    warning of the list is one it built itself: it has no value, its row
    is the default [-1], and it prints as its bare message. *)
Theorem validate_structural_warnings_print_bare (self : Schema) (df : DataFrame)
    (subset : option (list string)) (ws : list ValidationWarning) :
  invoked (validate self df subset) = [] ->
  outcome (validate self df subset) = Ok ws ->
  Forall (fun w => value w = None /\ row w = default_row /\ __str__ w = message w) ws.
Proof.
  intros Hinv Hout.
  destruct (validate_cases_warning self df subset)
    as [(m & c & Hv) | [(shown & Hv) | (pairs & Hp)]].
  - rewrite Hv in Hout. injection Hout as <-. apply Forall_singleton.
    split_and!; try done. by destruct c.
  - rewrite Hv in Hout. discriminate.
  - rewrite (validate_paired _ _ _ _ Hp) in Hinv, Hout.
    assert (pairs = []) as -> by by destruct (sorted_by_row _).
    simpl in Hout. by injection Hout as <-.
Qed.

Lemma validate_structural_warnings_print_bare_witness :
  Forall (fun w => value w = None /\ row w = default_row /\ __str__ w = message w)
         [missing_warning "a"].
Proof.
  apply (validate_structural_warnings_print_bare
           (mkSchema [col_a; col_b] false) frame_pq None); reflexivity.
Defined.

(** X9: a warning prints as its bare message exactly when its row, its
    column or its value is [None]; the default row [-1] is not [None]. *)
Theorem str_bare_iff_some_None (w : ValidationWarning) :
  __str__ w = message w <-> row w = None \/ column w = None \/ value w = None.
Proof.
  split.
  - destruct (row w) as [r|] eqn:Hr; [|auto].
    destruct (column w) as [c|] eqn:Hc; [|auto].
    destruct (value w) as [v|] eqn:Hv; [|auto].
    rewrite (str_all_present w r c v) by done. intros H.
    by apply full_form_not_message in H.
  - intros H. apply str_some_absent.
    destruct H as [-> | [-> | ->]]; simpl;
      repeat (destruct (is_not_None _)); reflexivity.
Qed.

(** ** Construction, then validation *)

(** X10: a schema that [__init__] built holds the list it was given, in
    the same order, and at least one column; so against a table without
    columns, [validate] with no subset always returns the count warning. *)
Theorem Schema_init_nonempty (cols : ColumnsArg) (ord : OrderedArg) (s : Schema) :
  Schema_init cols ord = Ok s ->
  cols = ArgList (columns s) /\
  ord = OrdBool (ordered s) /\
  columns s <> [] /\
  validate s [] None = mkRun (Ok [count_warning (length (columns s)) 0]) [].
Proof.
  unfold Schema_init. intros H.
  destruct cols as [|[|c cs]|[|c cs]|[]|]; simpl in H; try discriminate.
  destruct ord as [b|]; simpl in H; [|discriminate].
  injection H as <-. simpl. split_and!; done.
Qed.

Lemma Schema_init_nonempty_witness :
  validate (mkSchema [col_a] true) [] None = mkRun (Ok [count_warning 1 0]) [].
Proof.
  apply (Schema_init_nonempty (ArgList [col_a]) (OrdBool true) (mkSchema [col_a] true)).
  reflexivity.
Defined.

(** ** The list validate returns is a new object *)

Lemma keeps_pair_by_name_early h0 frame items errors column_pairs :
  h0 !! errors = None -> h0 !! column_pairs = None ->
  keeps h0 (pair_by_name_heap frame items errors column_pairs)
        (fun early => forall l, early = Some l -> l = errors).
Proof.
  intros He Hp. induction items as [|item rest IH]; simpl.
  - by apply keeps_ret.
  - eapply keeps_bind; [apply keeps_lift|]. intros c _.
    destruct (negb (df_contains (name c) frame)).
    + eapply keeps_bind; [by apply keeps_list_append|]. intros _ _.
      apply keeps_ret. by intros l [= <-].
    + destruct (df_getitem (name c) frame).
      * eapply keeps_bind; [by apply keeps_list_append|]. intros _ _. exact IH.
      * apply keeps_raise.
Qed.

Lemma keeps_return_sorted_new h0 errors :
  keeps h0 (return_sorted errors) (fun l => h0 !! l = None).
Proof.
  unfold return_sorted.
  eapply keeps_bind; [apply keeps_load_list|]. intros items _.
  eapply keeps_bind; [apply keeps_lift|]. intros ws _.
  destruct (sorted_by_row ws); [apply keeps_alloc | apply keeps_raise].
Qed.

Lemma keeps_pair_and_validate_new h0 self frame columns_to_pair errors :
  h0 !! errors = None ->
  keeps h0 (pair_and_validate self frame columns_to_pair errors)
        (fun l => h0 !! l = None).
Proof.
  intros He. unfold pair_and_validate.
  eapply keeps_bind; [apply keeps_attr_ordered|]. intros [] _.
  - eapply keeps_bind; [apply keeps_alloc|]. intros series _.
    eapply keeps_bind; [apply keeps_attr_columns|]. intros cl _.
    eapply keeps_bind; [apply keeps_load_list|]. intros xs _.
    eapply keeps_bind; [apply keeps_load_list|]. intros ys _.
    eapply keeps_bind; [by apply keeps_run_validations|]. intros _ _.
    apply keeps_return_sorted_new.
  - eapply keeps_bind; [apply keeps_alloc|]. intros column_pairs Hp.
    eapply keeps_bind; [apply keeps_load_list|]. intros items _.
    eapply keeps_bind; [by apply keeps_pair_by_name_early|]. intros [l|] Hl.
    + apply keeps_ret. by rewrite (Hl l eq_refl).
    + eapply keeps_bind; [apply keeps_load_list|]. intros pairs _.
      eapply keeps_bind; [by apply keeps_run_validations|]. intros _ _.
      apply keeps_return_sorted_new.
Qed.

Lemma keeps_validate_new h0 self df subset :
  keeps h0 (validate_heap self df subset) (fun l => h0 !! l = None).
Proof.
  unfold validate_heap.
  eapply keeps_bind; [apply keeps_alloc|]. intros errors He.
  eapply keeps_bind; [apply keeps_load_frame|]. intros frame _.
  destruct subset as [names|].
  - eapply keeps_bind; [apply keeps_get_column_names|]. intros schema_names _.
    destruct (issubset names schema_names).
    + eapply keeps_bind; [apply keeps_attr_columns|]. intros cl _.
      eapply keeps_bind; [apply keeps_load_list|]. intros items _.
      eapply keeps_bind; [apply keeps_lift|]. intros cs _.
      eapply keeps_bind; [apply keeps_alloc|]. intros columns_to_pair _.
      by apply keeps_pair_and_validate_new.
    + eapply keeps_bind; [apply keeps_attr_columns|]. intros cl _.
      eapply keeps_bind; [apply keeps_load_list|]. intros items _.
      eapply keeps_bind; [apply keeps_lift|]. intros cs _.
      apply keeps_raise.
  - eapply keeps_bind; [apply keeps_attr_columns|]. intros cl _.
    eapply keeps_bind; [apply keeps_load_list|]. intros items _.
    destruct (negb _).
    + eapply keeps_bind; [by apply keeps_list_append|]. intros _ _.
      by apply keeps_ret.
    + by apply keeps_pair_and_validate_new.
Qed.

(** X11: the list [validate] returns is an object that did not exist
    before the call, on every path that returns: the caller may change it
    without touching the schema, the table or the list of an earlier
    call. *)
Theorem validate_returns_new_list (st : State) (self df : loc)
    (subset : option (list string)) (l : loc) :
  fst (validate_heap self df subset st) = Ok l ->
  heap st !! l = None.
Proof.
  intros H.
  destruct (keeps_validate_new (heap st) self df subset st) as [_ Hnew]; [done|].
  by apply Hnew.
Qed.

Lemma validate_returns_new_list_witness :
  heap sample_store !! 6%positive = None.
Proof.
  apply (validate_returns_new_list sample_store 1 3 None 6).
  vm_compute. reflexivity.
Defined.

(** X12: run over the store, with its updates in place and its alias of
    [self.columns], [validate] calls the same validators in the same order
    as the functional reading and returns a list that holds the same
    warnings, or raises the same exception. *)
Theorem validate_heap_agrees (st : State) (self dfl : loc) (s : Schema)
    (d : DataFrame) (subset : option (list string)) :
  holds_schema st self s ->
  holds_frame st dfl d ->
  log (snd (validate_heap self dfl subset st)) =
    log st ++ invoked (validate s d subset) /\
  match outcome (validate s d subset) with
  | Ok ws =>
      exists l,
        fst (validate_heap self dfl subset st) = Ok l /\
        warnings_at (snd (validate_heap self dfl subset st)) l = Some ws
  | Raise e => fst (validate_heap self dfl subset st) = Raise e
  end.
Proof.
  intros Hs Hd.
  destruct (validate_heap_refines st self dfl s d subset Hs Hd) as [Hlog Hout].
  split; [done|].
  destruct (outcome (validate s d subset)) as [ws|e]; [|done].
  destruct Hout as (l & Hl & Hws). exists l. split; [done|].
  unfold warnings_at. by rewrite Hws, map_result_as_warning.
Qed.

Lemma validate_heap_agrees_witness :
  log (snd (validate_heap 1 3 (Some ["b"]) sample_store)) =
    log sample_store ++
    invoked (validate (mkSchema [col_a; col_b] false) frame_ab (Some ["b"])) /\
  match outcome (validate (mkSchema [col_a; col_b] false) frame_ab (Some ["b"])) with
  | Ok ws =>
      exists l,
        fst (validate_heap 1 3 (Some ["b"]) sample_store) = Ok l /\
        warnings_at (snd (validate_heap 1 3 (Some ["b"]) sample_store)) l = Some ws
  | Raise e => fst (validate_heap 1 3 (Some ["b"]) sample_store) = Raise e
  end.
Proof.
  apply (validate_heap_agrees sample_store 1 3 (mkSchema [col_a; col_b] false) frame_ab).
  - exists 2%positive. split; reflexivity.
  - reflexivity.
Defined.

(** ** Calling validate again *)

(** X13: validation keeps no state: a second call with the same
    arguments, made in the store the first call left, ends the same way;
    when both return, the second list is another object than the first,
    it holds the same warnings, and the first list is as the first call
    left it. *)
Theorem validate_twice_same (st : State) (self dfl : loc) (s : Schema)
    (d : DataFrame) (subset : option (list string)) :
  holds_schema st self s ->
  holds_frame st dfl d ->
  (forall e,
     fst (validate_heap self dfl subset st) = Raise e <->
     fst (validate_heap self dfl subset (snd (validate_heap self dfl subset st))) = Raise e) /\
  (forall l1 l2,
     fst (validate_heap self dfl subset st) = Ok l1 ->
     fst (validate_heap self dfl subset (snd (validate_heap self dfl subset st))) = Ok l2 ->
     l1 <> l2 /\
     warnings_at (snd (validate_heap self dfl subset
                         (snd (validate_heap self dfl subset st)))) l2 =
       warnings_at (snd (validate_heap self dfl subset st)) l1 /\
     warnings_at (snd (validate_heap self dfl subset
                         (snd (validate_heap self dfl subset st)))) l1 =
       warnings_at (snd (validate_heap self dfl subset st)) l1).
Proof.
  intros Hs Hd.
  set (r1 := validate_heap self dfl subset st).
  set (r2 := validate_heap self dfl subset (snd r1)).
  destruct (keeps_validate (heap st) self dfl subset st) as [Hframe1 _]; [done|].
  fold r1 in Hframe1.
  assert (holds_schema (snd r1) self s) as Hs1.
  { destruct Hs as (cl & Hself & Hcl). exists cl. split; by eapply lookup_weaken. }
  assert (holds_frame (snd r1) dfl d) as Hd1 by by eapply lookup_weaken.
  destruct (validate_heap_refines st self dfl s d subset Hs Hd) as [_ Hout1].
  destruct (validate_heap_refines (snd r1) self dfl s d subset Hs1 Hd1) as [_ Hout2].
  fold r1 in Hout1. fold r2 in Hout2.
  destruct (keeps_validate (heap (snd r1)) self dfl subset (snd r1)) as [Hframe2 _]; [done|].
  destruct (keeps_validate_new (heap (snd r1)) self dfl subset (snd r1)) as [_ Hnew]; [done|].
  fold r2 in Hframe2, Hnew.
  destruct (outcome (validate s d subset)) as [ws|e0].
  - destruct Hout1 as (l1' & Hl1 & Hws1). destruct Hout2 as (l2' & Hl2 & Hws2). split.
    + intros e. rewrite Hl1, Hl2. split; discriminate.
    + intros l1 l2 H1 H2. rewrite Hl1 in H1. rewrite Hl2 in H2.
      injection H1 as <-. injection H2 as <-.
      assert (heap (snd r2) !! l1' = Some (CList (map ObjWarning ws))) as Hkept
        by by eapply lookup_weaken.
      split_and!.
      * intros ->. rewrite (Hnew _ Hl2) in Hws1. discriminate.
      * unfold warnings_at. by rewrite Hws1, Hws2.
      * unfold warnings_at. by rewrite Hws1, Hkept.
  - split.
    + intros e. rewrite Hout1, Hout2. done.
    + intros l1 l2 H1. rewrite Hout1 in H1. discriminate.
Qed.

Lemma validate_twice_same_witness :
  fst (validate_heap 1 3 (Some ["z"]) sample_store) = Raise (PanSchArgumentError ["z"]) <->
  fst (validate_heap 1 3 (Some ["z"])
         (snd (validate_heap 1 3 (Some ["z"]) sample_store))) =
    Raise (PanSchArgumentError ["z"]).
Proof.
  apply (validate_twice_same sample_store 1 3 (mkSchema [col_a; col_b] false) frame_ab
           (Some ["z"])).
  - exists 2%positive. split; reflexivity.
  - reflexivity.
Defined.
